(** * gemfile-utils: the Gemfile updater of [src/index.js]

    A shallow embedding of the class [GemfileUpdater]: the line parser
    ([parseGemLine]), the version resolver ([fetchLatestVersionInfo] after
    the HTTP exchange, and [determineTargetVersion]), the line rebuilder
    ([buildGemLine]) and the loop of [update].

    JavaScript strings are sequences of UTF-16 code units; they are modelled
    as lists of code units ([N]).  Regular expressions are embedded as the
    matchers they denote; each one is deterministic (the character classes
    that follow each other in the patterns are disjoint, so the backtracking
    matcher has a single candidate at every position), which is argued next
    to each definition.

    The registry and the clock are the world outside the program: [update]
    threads a state of the world through the requests it makes, one line
    after the other, as the [await] in the loop does; a request whose path
    [https.request] refuses throws, and the run ends there.  The messages
    written to the console are not modelled.  Times are integers of
    milliseconds; the quotient by the length of a day and [Math.floor] are exact on the
    time values a [Date] can hold. *)

From Stdlib Require Import ZArith NArith List Bool Lia String Ascii Sorted.
Import ListNotations.

Set Implicit Arguments.

(* ===================================================================== *)
(** ** JavaScript primitives *)
(* ===================================================================== *)

Module JS.

Local Open Scope N_scope.

(** A UTF-16 code unit. *)
Definition char := N.
Definition jsstring := list char.

(** A string literal of the source (code units below 256). *)
Definition lit (s : string) : jsstring :=
  map N_of_ascii (list_ascii_of_string s).

Definition ch (a : ascii) : char := N_of_ascii a.

(** The two quote characters: single (code 39) and double (code 34). *)
Definition sq : char := 39%N.
Definition dq : char := 34%N.

Definition char_in (lo hi c : char) : bool := ((lo <=? c) && (c <=? hi))%N.

(** ECMAScript LineTerminator: LF, CR, LS, PS.  The regular expression
    atom [.] (without the [s] flag) matches every code unit but these. *)
Definition is_line_terminator (c : char) : bool :=
  ((c =? 10) || (c =? 13) || (c =? 8232) || (c =? 8233))%N.

(** ECMAScript WhiteSpace and LineTerminator: what [\s] matches and what
    [trim], [trimEnd] and [parseInt] strip. *)
Definition is_space (c : char) : bool :=
  (char_in 9 13 c || (c =? 32) || (c =? 160) || (c =? 5760)
   || char_in 8192 8202 c || (c =? 8232) || (c =? 8233) || (c =? 8239)
   || (c =? 8287) || (c =? 12288) || (c =? 65279))%N.

(** [\w] without the [u] and [i] flags: [A-Za-z0-9_]. *)
Definition is_word (c : char) : bool :=
  (char_in 97 122 c || char_in 65 90 c || char_in 48 57 c || (c =? 95))%N.

(** The class of the two quote characters. *)
Definition is_quote (c : char) : bool := ((c =? sq) || (c =? dq))%N.

(** [0-9] *)
Definition is_digit (c : char) : bool := char_in 48 57 c.

(** [~>=<] *)
Definition is_op (c : char) : bool :=
  ((c =? 126) || (c =? 62) || (c =? 61) || (c =? 60))%N.

(** The longest prefix of code units satisfying [p], and the rest: what a
    greedy [x*] consumes when the atom after it cannot match an [x]. *)
Fixpoint span (p : char -> bool) (s : jsstring) : jsstring * jsstring :=
  match s with
  | [] => ([], [])
  | c :: t => if p c then let (a, b) := span p t in (c :: a, b) else ([], s)
  end.

Fixpoint dropWhile (p : char -> bool) (s : jsstring) : jsstring :=
  match s with
  | [] => []
  | c :: t => if p c then dropWhile p t else s
  end.

Definition trimStart (s : jsstring) : jsstring := dropWhile is_space s.
Definition trimEnd (s : jsstring) : jsstring := rev (dropWhile is_space (rev s)).
Definition trim (s : jsstring) : jsstring := trimEnd (trimStart s).

(** [s.startsWith(p)]; also a literal at the current position of a
    regular expression. *)
Fixpoint startsWith (s p : jsstring) : bool :=
  match p, s with
  | [], _ => true
  | _ :: _, [] => false
  | a :: p', b :: s' => (a =? b)%N && startsWith s' p'
  end.

(** What follows the literal [p] at the head of [s]. *)
Fixpoint stripPrefix (s p : jsstring) : option jsstring :=
  match p, s with
  | [], _ => Some s
  | _ :: _, [] => None
  | a :: p', b :: s' => if (a =? b)%N then stripPrefix s' p' else None
  end.

(** [s.includes(p)] *)
Fixpoint includes (s p : jsstring) : bool :=
  startsWith s p ||
  match s with
  | [] => false
  | _ :: t => includes t p
  end.

(** [s.indexOf(p)], counted from [i]; -1 when [p] does not occur. *)
Fixpoint indexOf_from (i : Z) (s p : jsstring) : Z :=
  if startsWith s p then i
  else match s with
       | [] => (-1)%Z
       | _ :: t => indexOf_from (i + 1) t p
       end.

Definition indexOf (s p : jsstring) : Z := indexOf_from 0 s p.

(** [s.split(sep)] for a one-unit separator: never the empty array. *)
Fixpoint split (sep : char) (s : jsstring) : list jsstring :=
  match s with
  | [] => [[]]
  | c :: t =>
      if (c =? sep)%N then [] :: split sep t
      else match split sep t with
           | [] => [[c]]
           | h :: r => (c :: h) :: r
           end
  end.

(** [a.join(sep)] *)
Fixpoint join (sep : char) (a : list jsstring) : jsstring :=
  match a with
  | [] => []
  | [x] => x
  | x :: r => x ++ sep :: join sep r
  end.

(** *** Numbers

    [parseInt] returns a Number: NaN, an integer-valued double or an
    infinity (for a numeral of more than 308 digits). *)
Inductive num : Type :=
| NaN : num
| Inf (negative : bool) : num
| Fin (z : Z) : num.

(** The double nearest to the mathematical integer [m >= 0], ties to
    even: exact below 2^53, an infinity from 2^1024 - 2^970 on. *)
Definition to_double (m : Z) : num :=
  if (m <? 2 ^ 53)%Z then Fin m
  else
    let e := (Z.log2 m - 52)%Z in
    let q := (m / 2 ^ e)%Z in
    let r := (m mod 2 ^ e)%Z in
    let h := (2 ^ (e - 1))%Z in
    let q' := if (h <? r)%Z || ((r =? h)%Z && Z.odd q) then (q + 1)%Z else q in
    let v := (q' * 2 ^ e)%Z in
    if (2 ^ 1024 <=? v)%Z then Inf false else Fin v.

Definition negate (x : num) : num :=
  match x with
  | NaN => NaN
  | Inf b => Inf (negb b)
  | Fin z => Fin (- z)
  end.

(** [x === y] on Numbers: NaN equals nothing, and -0 is 0. *)
Definition strict_eq (x y : num) : bool :=
  match x, y with
  | Fin a, Fin b => (a =? b)%Z
  | Inf a, Inf b => Bool.eqb a b
  | _, _ => false
  end.

(** The value of a digit in radix [R], if it is one. *)
Definition digit_val (R : Z) (c : char) : option Z :=
  let v := if char_in 48 57 c then (Z.of_N c - 48)%Z
           else if char_in 97 122 c then (Z.of_N c - 87)%Z
           else if char_in 65 90 c then (Z.of_N c - 55)%Z
           else R in
  if (v <? R)%Z then Some v else None.

(** The longest prefix of radix-[R] digits, as a mathematical integer;
    [None] when the prefix is empty. *)
Fixpoint read_digits (R : Z) (acc : option Z) (s : jsstring) : option Z :=
  match s with
  | [] => acc
  | c :: t =>
      match digit_val R c with
      | None => acc
      | Some d =>
          read_digits R (Some (match acc with
                               | None => d
                               | Some a => a * R + d
                               end)%Z) t
      end
  end.

(** [parseInt(s)] with no radix argument: leading white space is skipped,
    a sign is read, a [0x] or [0X] prefix selects radix 16, and the longest
    prefix of digits is the value; NaN when there is no digit. *)
Definition parseInt (s : jsstring) : num :=
  let s1 := trimStart s in
  let neg := match s1 with
             | c :: _ => c =? 45
             | [] => false
             end in
  let s2 := match s1 with
            | c :: t => if (c =? 45) || (c =? 43) then t else s1
            | [] => s1
            end in
  let hex := match s2 with
             | z :: x :: _ => (z =? 48) && ((x =? 120) || (x =? 88))
             | _ => false
             end in
  let R := if hex then 16%Z else 10%Z in
  let s3 := if hex then skipn 2 s2 else s2 in
  match read_digits R None s3 with
  | None => NaN
  | Some m => if neg then negate (to_double m) else to_double m
  end.

(** [a[0]] of an array of strings; [undefined] is [None]. *)
Definition first (A : Type) (a : list A) : option A :=
  match a with
  | [] => None
  | x :: _ => Some x
  end.

(** [a[a.length - 1]] *)
Fixpoint last_elt (A : Type) (a : list A) : option A :=
  match a with
  | [] => None
  | [x] => Some x
  | _ :: r => last_elt r
  end.

End JS.
Import JS.

Local Open Scope N_scope.

(* ===================================================================== *)
(** ** The registry's answer and the version resolver *)
(* ===================================================================== *)

(** [MAJOR_VERSION_AGE_THRESHOLD], in days. *)
Definition MAJOR_VERSION_AGE_THRESHOLD : Z := 180.

(** Milliseconds in a day: [1000 * 60 * 60 * 24]. *)
Definition MS_PER_DAY : Z := 1000 * 60 * 60 * 24.

(** One element of the JSON array served by the registry, with the fields
    the code reads.  [created_at] is the time value of
    [new Date(v.created_at)], in milliseconds since the epoch, for a date
    the registry writes in a form [Date] reads. *)
Record Version : Type := mkVersion {
  number : jsstring;
  prerelease : bool;
  created_at : Z
}.

(** The outcome of the HTTPS exchange of [fetchLatestVersionInfo]:
    [Failed] stands for every path that resolves [null] before the array is
    read (a status other than 200, a request error, the timeout, a body that
    [JSON.parse] rejects or that is not an array of such records). *)
Inductive Response : Type :=
| Failed : Response
| Body (versions : list Version) : Response.

(** The object [{ latest, majorReleaseDate }] resolved on success. *)
Record LatestInfo : Type := mkLatestInfo {
  latest : jsstring;
  majorReleaseDate : Z
}.

(** [parseInt(n.split(".")[0])]: the leading component of a version.
    [split] never returns the empty array, so index 0 is defined. *)
Definition major_of (n : jsstring) : num :=
  parseInt (nth 0 (split 46 n) []).

(** [versions.filter((v) => !v.prerelease)] *)
Definition stableVersions (versions : list Version) : list Version :=
  filter (fun v => negb (prerelease v)) versions.

(** [stableVersions.filter((v) => parseInt(v.number.split(".")[0]) === majorVersion)] *)
Definition majorVersions (stable : list Version) (majorVersion : num)
  : list Version :=
  filter (fun v => strict_eq (major_of (number v)) majorVersion) stable.

(** The [try] block of the response handler.  With no stable version the
    promise resolves [null].  When the filter on the major line is empty
    (the leading component of the latest version is NaN, which equals
    nothing), indexing at [length - 1] gives [undefined], reading
    [created_at] of it throws, and the [catch] resolves [null]. *)
Definition latestVersionInfo (versions : list Version) : option LatestInfo :=
  let stable := stableVersions versions in
  match stable with
  | [] => None
  | latest :: _ =>
      let latestVersion := number latest in
      let majorVersion := major_of latestVersion in
      match last_elt (majorVersions stable majorVersion) with
      | None => None
      | Some oldest => Some (mkLatestInfo latestVersion (created_at oldest))
      end
  end.

(** What the promise of [fetchLatestVersionInfo] resolves to. *)
Definition resolveLatestInfo (r : Response) : option LatestInfo :=
  match r with
  | Failed => None
  | Body versions => latestVersionInfo versions
  end.


(** [Math.floor((today - majorReleaseDate) / (1000 * 60 * 60 * 24))];
    [Z.div] rounds down as [Math.floor] does. *)
Definition daysSince (today date : Z) : Z := ((today - date) / MS_PER_DAY)%Z.

(** [v.split(".").map((n) => parseInt(n))[0]] *)
Definition majorPart (v : jsstring) : num :=
  nth 0 (map parseInt (split 46 v)) NaN.

(** [determineTargetVersion]; [today] is the value of [new Date()]. *)
Definition determineTargetVersion (today : Z) (currentVersion : option jsstring)
    (latestVersion : jsstring) (majorReleaseDate : Z) : jsstring :=
  let daysSinceMajorRelease := daysSince today majorReleaseDate in
  match currentVersion with
  | None | Some [] => latestVersion
  | Some current =>
      let currentMajor := majorPart current in
      let latestMajor := majorPart latestVersion in
      if strict_eq currentMajor latestMajor then latestVersion
      else if (MAJOR_VERSION_AGE_THRESHOLD <=? daysSinceMajorRelease)%Z
           then latestVersion
           else current
  end.

(** The resolver as [update] runs it on an answer of the registry:
    [None] is the skip. *)
Definition resolve (today : Z) (currentVersion : option jsstring)
    (versions : list Version) : option jsstring :=
  match latestVersionInfo versions with
  | None => None
  | Some info =>
      Some (determineTargetVersion today currentVersion
              (latest info) (majorReleaseDate info))
  end.

(* ===================================================================== *)
(** ** The line parser *)
(* ===================================================================== *)

(** The leftmost match of a pattern: the matcher is tried at position 0,
    then 1, and so on up to the end of the string. *)
Fixpoint search (A : Type) (m : jsstring -> option A) (s : jsstring)
  : option A :=
  match m s with
  | Some x => Some x
  | None => match s with
            | [] => None
            | _ :: t => search m t
            end
  end.

Definition is_word_opt (c : option char) : bool :=
  match c with
  | None => false
  | Some x => is_word x
  end.

(** [\b] between the code unit before and the one after. *)
Definition word_boundary (prev next : option char) : bool :=
  xorb (is_word_opt prev) (is_word_opt next).

Definition alt_markers : list jsstring :=
  [lit "git:"; lit "github:"; lit "path:"; lit "source:"].

(** [/\b(git:|github:|path:|source:)/.test(line)], with [prev] the code
    unit before the current position. *)
Fixpoint test_altSource (prev : option char) (s : jsstring) : bool :=
  (word_boundary prev (first s) && existsb (startsWith s) alt_markers)
  || match s with
     | [] => false
     | c :: t => test_altSource (Some c) t
     end.

Definition not_quote (c : char) : bool := negb (is_quote c).

(** The pattern [gem\s+Q([^Q]+)Q] at the head of [s], where [Q] is the
    class of the two quotes; the result is group 1.  White space and quotes
    are disjoint, so [\s+] takes the whole run of white space; the group
    takes every unit up to the next quote. *)
Definition match_gem_at (s : jsstring) : option jsstring :=
  match stripPrefix s (lit "gem") with
  | None => None
  | Some r =>
      let (ws, r1) := span is_space r in
      match ws, r1 with
      | _ :: _, q :: r2 =>
          if is_quote q then
            let (name, r3) := span not_quote r2 in
            match name, r3 with
            | _ :: _, q' :: _ => if is_quote q' then Some name else None
            | _, _ => None
            end
          else None
      | _, _ => None
      end
  end.

(** An optional [(?:\.[0-9]+)] at the head of [s]: the text it takes and
    the rest. *)
Definition dot_group (s : jsstring) : jsstring * jsstring :=
  match s with
  | c :: t =>
      if c =? 46 then
        let (d, t') := span is_digit t in
        match d with
        | [] => ([], s)
        | _ :: _ => (c :: d, t')
        end
      else ([], s)
  | [] => ([], s)
  end.

(** The version pattern at the head of [s]: a quote, a comma, any white
    space, a quote, the optional group 1 (any run of the operator characters
    [~>=<], then any white space), group 2
    [[0-9]+\.[0-9]+(?:\.[0-9]+)?(?:\.[0-9]+)?], a quote.  The result is
    group 2.  Operators, white space, digits, the dot and the quotes are
    pairwise disjoint, so every greedy run is maximal and the closing quote
    must follow the last digit taken. *)
Definition match_version_at (s : jsstring) : option jsstring :=
  match s with
  | q1 :: comma :: r =>
      if is_quote q1 && (comma =? 44) then
        let (_, r1) := span is_space r in
        match r1 with
        | q2 :: r2 =>
            if is_quote q2 then
              let (_, r3) := span is_op r2 in
              let (_, r4) := span is_space r3 in
              let (d1, r5) := span is_digit r4 in
              match d1, r5 with
              | _ :: _, dot :: r6 =>
                  if dot =? 46 then
                    let (d2, r7) := span is_digit r6 in
                    match d2 with
                    | [] => None
                    | _ :: _ =>
                        let (g1, r8) := dot_group r7 in
                        let (g2, r9) := dot_group r8 in
                        match r9 with
                        | q3 :: _ =>
                            if is_quote q3
                            then Some (d1 ++ dot :: d2 ++ g1 ++ g2)
                            else None
                        | [] => None
                        end
                    end
                  else None
              | _, _ => None
              end
            else None
        | [] => None
        end
      else None
  | _ => None
  end.

(** The object returned by [parseGemLine]. *)
Record GemLine : Type := mkGemLine {
  gemName : option jsstring;
  currentVersion : option jsstring;
  hasAltSource : bool
}.

Definition parseGemLine (line : jsstring) : GemLine :=
  let hasAltSource := test_altSource None line in
  match search match_gem_at line with
  | None => mkGemLine None None false
  | Some gemName =>
      mkGemLine (Some gemName) (search match_version_at line) hasAltSource
  end.

(* ===================================================================== *)
(** ** The line rebuilder *)
(* ===================================================================== *)

(** [originalLine.match(/^\s*/)[0]] *)
Definition indent_of (line : jsstring) : jsstring := fst (span is_space line).

(** The quote style: single when the line includes the name between single
    quotes, double otherwise. *)
Definition detect_quote (line gemName : jsstring) : char :=
  if includes line (sq :: gemName ++ [sq]) then sq else dq.

Definition not_line_terminator (c : char) : bool := negb (is_line_terminator c).

(** The pattern of [afterGemMatch] at the head of [s]: [gem\s+], a quote,
    the name, a quote, any white space, and group 1, the rest of the line up
    to the first line terminator.  The result is group 1.  Every syntax
    character of the name is escaped before the pattern is built, so the
    name matches as a literal. *)
Definition match_after_gem_at (gemName s : jsstring) : option jsstring :=
  match stripPrefix s (lit "gem") with
  | None => None
  | Some r =>
      let (ws, r1) := span is_space r in
      match ws, r1 with
      | _ :: _, q :: r2 =>
          if is_quote q then
            match stripPrefix r2 gemName with
            | Some (q' :: r3) =>
                if is_quote q' then
                  let (_, r4) := span is_space r3 in
                  Some (fst (span not_line_terminator r4))
                else None
            | _ => None
            end
          else None
      | _, _ => None
      end
  end.

(** The [replace] of [afterGem]: a leading constraint token (a comma, any
    white space, a quote, any units but quotes, a quote) is removed; the
    string is returned as it is when the pattern fails. *)
Definition strip_constraint (afterGem : jsstring) : jsstring :=
  match afterGem with
  | comma :: r =>
      if comma =? 44 then
        let (_, r1) := span is_space r in
        match r1 with
        | q :: r2 =>
            if is_quote q then
              match snd (span not_quote r2) with
              | q' :: r3 => if is_quote q' then r3 else afterGem
              | [] => afterGem
              end
            else afterGem
        | [] => afterGem
        end
      else afterGem
  | [] => afterGem
  end.

(** The text appended after the new constraint. *)
Definition remaining (afterGem : jsstring) : jsstring :=
  if (0 <? List.length (trim afterGem))%nat then trimEnd afterGem else [].

Definition afterGem_of (originalLine gemName : jsstring) : jsstring :=
  match search (match_after_gem_at gemName) originalLine with
  | Some g => g
  | None => []
  end.

Definition buildGemLine (originalLine gemName version : jsstring) : jsstring :=
  let indent := indent_of originalLine in
  let quote := detect_quote originalLine gemName in
  let afterGem := strip_constraint (afterGem_of originalLine gemName) in
  let newLine :=
    indent ++ lit "gem " ++ quote :: gemName ++ quote :: lit ", "
           ++ quote :: lit "~> " ++ version ++ [quote] in
  newLine ++ remaining afterGem.

(* ===================================================================== *)
(** ** The loop of [update] *)
(* ===================================================================== *)

(** The guard of the loop: the trimmed line starts with the keyword and a
    space, and no [#] stands before the first occurrence of [gem]. *)
Definition is_gem_line (line : jsstring) : bool :=
  startsWith (trim line) (lit "gem ")
  && negb (includes line (lit "#")
           && (indexOf line (lit "#") <? indexOf line (lit "gem"))%Z).

(** The outcome of an asynchronous step in a world: it completes with a
    value and the world it leaves, or it throws (its promise rejects) in the
    world it has reached.  Nothing in [update] catches: a step that throws
    ends the loop, and [main] exits with code 1 before anything is written. *)
Inductive Run (A World : Type) : Type :=
| Done (a : A) (w : World) : Run A World
| Thrown (w : World) : Run A World.

Arguments Done {A World} a w.
Arguments Thrown {A World} w.

(** The path of the request, [`/api/v1/versions/${gemName}.json`]. *)
Definition request_path (gemName : jsstring) : jsstring :=
  lit "/api/v1/versions/" ++ gemName ++ lit ".json".

(** The units that [https.request] refuses in a path: everything outside
    U+0021 to U+00FF.  With one of them in the path it throws
    [ERR_UNESCAPED_CHARACTERS] before anything is sent. *)
Definition invalid_path_unit (c : char) : bool := (c <? 33) || (255 <? c).

Definition has_unescaped_characters (path : jsstring) : bool :=
  existsb invalid_path_unit path.

Section Updater.

(** The world outside the program: the registry and the clock.
    [request name w] is the HTTPS exchange for [name]; it may answer
    differently at every call.  [clock w] is the value of [new Date()]. *)
Variable World : Type.
Variable request : jsstring -> World -> Response * World.
Variable clock : World -> Z.

(** [fetchLatestVersionInfo(gemName)]: [https.request] is called inside
    the executor of the promise, so that its throwing on the path rejects
    the promise; every other path resolves. *)
Definition fetchLatestVersionInfo (name : jsstring) (w : World)
  : Run (option LatestInfo) World :=
  if has_unescaped_characters (request_path name) then Thrown w
  else let (r, w') := request name w in Done (resolveLatestInfo r) w'.

(** One turn of the loop: the line pushed onto [updatedLines], unless the
    [await] throws. *)
Definition updateLine (line : jsstring) (w : World) : Run jsstring World :=
  if is_gem_line line then
    let p := parseGemLine line in
    match gemName p with
    | Some (c :: n) =>
        let name := c :: n in
        if hasAltSource p then Done line w
        else
          match fetchLatestVersionInfo name w with
          | Thrown w' => Thrown w'
          | Done latestInfo w' =>
              match latestInfo with
              | Some info =>
                  let targetVersion :=
                    determineTargetVersion (clock w') (currentVersion p)
                      (latest info) (majorReleaseDate info) in
                  Done (buildGemLine line name targetVersion) w'
              | None => Done line w'
              end
          end
    | _ => Done line w
    end
  else Done line w.

(** The [for] loop over the lines. *)
Fixpoint updateLines (lines : list jsstring) (w : World)
  : Run (list jsstring) World :=
  match lines with
  | [] => Done [] w
  | line :: rest =>
      match updateLine line w with
      | Thrown w' => Thrown w'
      | Done out w1 =>
          match updateLines rest w1 with
          | Thrown w' => Thrown w'
          | Done outs w2 => Done (out :: outs) w2
          end
      end
  end.

(** [update]: the content is split at line feeds, and the lines pushed
    are joined again.  [gemfileContent] is the string held by the updater,
    the file as the constructor has decoded it; [Done text w] is the call of
    [writeFileSync] with [text], and nothing is written when the loop
    throws.  The file system is not modelled. *)
Definition update (gemfileContent : jsstring) (w : World)
  : Run jsstring World :=
  match updateLines (split 10 gemfileContent) w with
  | Thrown w' => Thrown w'
  | Done updatedLines w' => Done (join 10 updatedLines) w'
  end.

End Updater.

(* ===================================================================== *)
(** ** Notions of the specification, used to state the properties *)
(* ===================================================================== *)

(** The earliest [created_at] among the records of [vs]: the date the
    specification calls the first stable release of a major line. *)
Definition min_created_at (vs : list Version) : option Z :=
  match vs with
  | [] => None
  | v :: r => Some (fold_left (fun m x => Z.min m (created_at x)) r (created_at v))
  end.

(** The order of a history as the registry publishes it: a record is not
    older than the one after it. *)
Definition newest_first (a b : Version) : Prop := (created_at b <= created_at a)%Z.

(** The records of the latest major line of a history. *)
Definition latest_major_line (versions : list Version) : list Version :=
  match stableVersions versions with
  | [] => []
  | v :: _ => majorVersions (stableVersions versions) (major_of (number v))
  end.

(** The opening quote of the first place of [line] where [name] stands
    between two quotes of the same style. *)
Fixpoint first_quoted_occurrence (line name : jsstring) : option char :=
  match line with
  | [] => None
  | q :: t =>
      if is_quote q
         && match stripPrefix t name with
            | Some (q' :: _) => (q' =? q)
            | _ => false
            end
      then Some q
      else first_quoted_occurrence t name
  end.

(** A line with every quote written as the double quote: equality of two
    lines up to the quote style. *)
Definition canon_quotes (s : jsstring) : jsstring :=
  map (fun c => if is_quote c then dq else c) s.

(** [x < y] on the finite numbers. *)
Definition num_ltb (x y : num) : bool :=
  match x, y with
  | Fin a, Fin b => (a <? b)%Z
  | _, _ => false
  end.

(** The numeric order of two dotted versions, component by component. *)
Fixpoint parts_ltb (a b : list num) : bool :=
  match a, b with
  | x :: a', y :: b' => num_ltb x y || (strict_eq x y && parts_ltb a' b')
  | [], _ :: _ => true
  | _, [] => false
  end.

Definition version_ltb (a b : jsstring) : bool :=
  parts_ltb (map parseInt (split 46 a)) (map parseInt (split 46 b)).

(** Sample text: a string literal in which the backquote stands for the
    double quote. *)
Definition src (s : string) : jsstring :=
  map (fun c => if (c =? 96) then dq else c) (lit s).

(** The predicate [p] fails on the first unit of [s], if there is one. *)
Definition stops (p : char -> bool) (s : jsstring) : Prop :=
  match s with
  | [] => True
  | c :: _ => p c = false
  end.

Definition blank (s : jsstring) : bool := forallb is_space s.





(** The layout of a line as the rebuilder writes it for [version], in any
    quote style: one space after the keyword, a comma and a space, the
    operator and a space, and a trailing text without line terminator and
    without trailing white space. *)
Inductive rebuilt_layout (name version : jsstring) : jsstring -> Prop :=
| RebuiltLayout :
    forall (indent rest : jsstring) (q1 q2 q3 q4 : char),
      blank indent = true ->
      is_quote q1 = true -> is_quote q2 = true ->
      is_quote q3 = true -> is_quote q4 = true ->
      forallb not_quote version = true ->
      forallb not_line_terminator version = true ->
      forallb not_line_terminator rest = true ->
      trimEnd rest = rest ->
      rebuilt_layout name version
        (indent ++ lit "gem " ++ q1 :: name ++ q2 :: lit ", "
           ++ q3 :: lit "~> " ++ version ++ q4 :: rest).

(** The newest stable release of a history: its first record that is not
    a prerelease. *)
Fixpoint newest_stable (versions : list Version) : option Version :=
  match versions with
  | [] => None
  | v :: r => if prerelease v then newest_stable r else Some v
  end.

(** The stable records of the major line of [l]: the records that are not
    prereleases and whose leading component equals that of [l]. *)
Definition stable_major_line (l : Version) (versions : list Version)
  : list Version :=
  filter (fun v => negb (prerelease v)
                   && strict_eq (major_of (number v)) (major_of (number l)))
    versions.

(** A string with no line feed: one line of a text. *)
Definition no_line_feed (s : jsstring) : bool :=
  forallb (fun c => negb (c =? 10)) s.

(** The last unit of a string, if any. *)
Definition last_char (s : jsstring) : option char := last_elt s.

(** A version of two to four components, each a decimal numeral: what
    group 2 of the version pattern accepts. *)
Definition is_numeral (c : jsstring) : bool :=
  match c with
  | [] => false
  | _ :: _ => forallb is_digit c
  end.

(** An optional group of the version pattern: nothing, or a dot and a
    numeral. *)
Definition dot_numeral (g : jsstring) : Prop :=
  g = [] \/ exists d : jsstring, g = 46 :: d /\ is_numeral d = true.

Definition is_numeric_version (v : jsstring) : bool :=
  let components := split 46 v in
  (2 <=? List.length components)%nat
  && (List.length components <=? 4)%nat
  && forallb is_numeral components.

(** The name for which one turn of the loop makes a request, if it makes
    one: the line passes the guard, a name is parsed and no alternate source
    is flagged. *)
Definition requested_name (line : jsstring) : option jsstring :=
  if is_gem_line line then
    match gemName (parseGemLine line) with
    | Some (c :: n) =>
        if hasAltSource (parseGemLine line) then None else Some (c :: n)
    | _ => None
    end
  else None.

(** The requests the loop makes on [lines]: one for each line with a
    requested name, in the order of the lines, up to the first name whose
    path [https.request] refuses. *)
Fixpoint requests_made (lines : list jsstring) : list jsstring :=
  match lines with
  | [] => []
  | line :: rest =>
      match requested_name line with
      | None => requests_made rest
      | Some n =>
          if has_unescaped_characters (request_path n) then []
          else n :: requests_made rest
      end
  end.



(* ===================================================================== *)
(** ** Sample histories, registries and manifests *)
(* ===================================================================== *)

(** A history of one major line in registry order: 4.1.0 published on day
    190 and 4.0.0 on day 0. *)
Definition history_4x : list Version :=
  [ mkVersion (lit "4.1.0") false (190 * MS_PER_DAY);
    mkVersion (lit "4.0.0") false 0 ].

(** A history whose newest stable release is 2.3.0 (a prerelease of 3.0
    stands before it). *)
Definition history_2x : list Version :=
  [ mkVersion (lit "3.0.0.rc1") true (400 * MS_PER_DAY);
    mkVersion (lit "2.3.0") false (300 * MS_PER_DAY);
    mkVersion (lit "2.2.0") false (100 * MS_PER_DAY) ].

(** A registry that is down, counting the requests made to it, and one
    that serves a history with no stable record, logging the names asked. *)
Definition registry_down (name : jsstring) (calls : nat) : Response * nat :=
  (Failed, S calls).

Definition registry_prerelease_only (name : jsstring) (log : list jsstring)
  : Response * list jsstring :=
  (Body [mkVersion (lit "1.0.0.beta1") true 0], name :: log).

Definition registry_4x (name : jsstring) (log : list jsstring)
  : Response * list jsstring :=
  (Body history_4x, name :: log).

(** A history that is not in registry order, with a prerelease of the next
    major line and a stable record of an older one: 5.0.0.beta1 (day 195),
    4.0.0 (day 0), 4.1.0 (day 190), 3.9.9 (day 50). *)
Definition history_unordered : list Version :=
  [ mkVersion (lit "5.0.0.beta1") true 16848000000;
    mkVersion (lit "4.0.0") false 0;
    mkVersion (lit "4.1.0") false 16416000000;
    mkVersion (lit "3.9.9") false 4320000000 ].


(** A registry that serves a version number holding a line feed. *)
Definition registry_line_feed (name : jsstring) (log : list jsstring)
  : Response * list jsstring :=
  (Body [mkVersion (lit "1.0" ++ [10] ++ lit "2") false 0], name :: log).

(** A manifest whose second declaration names a gem with a space. *)
Definition gemfile_unescaped : list jsstring :=
  [ src "gem 'a'";
    src "gem 'foo bar'";
    src "gem 'b'" ].

Definition gemfile_sample : list jsstring :=
  [ src "source 'https://rubygems.org'";
    src "gem `foo`, `~> 1.0`";
    src "gem 'rails', github: 'rails/rails'" ].

(* ===================================================================== *)
(** ** Properties of the version resolver *)
(* ===================================================================== *)

Section ResolverFacts.

Local Open Scope Z_scope.

Lemma split_not_nil (sep : char) (s : jsstring) : split sep s <> [].
Proof.
  destruct s as [|c t]; simpl; [discriminate|].
  destruct (c =? sep)%N; [discriminate|].
  destruct (split sep t); discriminate.
Qed.


Lemma last_elt_cons (A : Type) (l : list A) :
  forall x, exists o, last_elt (x :: l) = Some o.
Proof.
  induction l as [|y l IH]; intros x; [exists x; reflexivity|].
  destruct (IH y) as [o Ho]. exists o. exact Ho.
Qed.

Lemma newest_first_trans : Relations_1.Transitive newest_first.
Proof. intros a b c Hab Hbc. unfold newest_first in *. lia. Qed.

(** Along a history in registry order the running minimum is the date of
    the last record. *)
Lemma fold_min_newest_first (r : list Version) :
  forall v oldest,
    StronglySorted newest_first (v :: r) ->
    last_elt (v :: r) = Some oldest ->
    fold_left (fun m x => Z.min m (created_at x)) r (created_at v)
    = created_at oldest.
Proof.
  induction r as [|x r IH]; intros v oldest Hs Hl.
  - injection Hl as <-. reflexivity.
  - inversion Hs as [|? ? Hs' Hall]; subst.
    inversion Hall as [|? ? Hx _]; subst.
    cbn [fold_left].
    replace (Z.min (created_at v) (created_at x)) with (created_at x)
      by (unfold newest_first in Hx; lia).
    apply (IH x oldest Hs'). exact Hl.
Qed.

Lemma min_created_at_newest_first (l : list Version) :
  Sorted newest_first l ->
  min_created_at l = option_map created_at (last_elt l).
Proof.
  intros Hs. destruct l as [|v r]; [reflexivity|].
  destruct (last_elt_cons r v) as [oldest Hl].
  rewrite Hl. cbn [min_created_at option_map]. f_equal.
  apply fold_min_newest_first; [|exact Hl].
  apply Sorted_StronglySorted; [exact newest_first_trans | exact Hs].
Qed.

(** What [fetchLatestVersionInfo] resolves, read off the history. *)
Lemma latestVersionInfo_inv (versions : list Version) (info : LatestInfo) :
  latestVersionInfo versions = Some info ->
  exists v rest oldest,
    stableVersions versions = v :: rest
    /\ last_elt (latest_major_line versions) = Some oldest
    /\ info = mkLatestInfo (number v) (created_at oldest).
Proof.
  unfold latestVersionInfo, latest_major_line.
  destruct (stableVersions versions) as [|v rest] eqn:Hst; [discriminate|].
  destruct (last_elt (majorVersions (v :: rest) (major_of (number v))))
    as [oldest|] eqn:Hl; [|discriminate].
  intros H; injection H as <-. exists v, rest, oldest. auto.
Qed.

(** 180 whole days have passed exactly when the age in milliseconds has
    reached 180 days. *)
Lemma threshold_days_ms (today date : Z) :
  (MAJOR_VERSION_AGE_THRESHOLD <=? daysSince today date)
  = (MAJOR_VERSION_AGE_THRESHOLD * MS_PER_DAY <=? today - date).
Proof.
  unfold daysSince, MAJOR_VERSION_AGE_THRESHOLD.
  assert (Hd : 0 < MS_PER_DAY) by reflexivity.
  pose proof (Z.div_mod (today - date) MS_PER_DAY ltac:(lia)) as Hdm.
  pose proof (Z.mod_pos_bound (today - date) MS_PER_DAY Hd) as Hb.
  destruct (Z.leb_spec 180 ((today - date) / MS_PER_DAY));
    destruct (Z.leb_spec (180 * MS_PER_DAY) (today - date));
    try reflexivity; nia.
Qed.

End ResolverFacts.

(** The newest stable release is the head of the filtered history. *)
Lemma newest_stable_first (versions : list Version) :
  newest_stable versions = first (stableVersions versions).
Proof.
  induction versions as [|v r IH]; [reflexivity|].
  cbn [newest_stable stableVersions filter].
  destruct (prerelease v); [exact IH | reflexivity].
Qed.

(** The two filters of the handler, one after the other, keep the stable
    records of the major line. *)
Lemma majorVersions_stable_major_line (l : Version) (versions : list Version) :
  majorVersions (stableVersions versions) (major_of (number l))
  = stable_major_line l versions.
Proof.
  unfold majorVersions, stableVersions, stable_major_line.
  induction versions as [|v r IH]; [reflexivity|].
  cbn [filter]. destruct (prerelease v); cbn [negb andb filter].
  - exact IH.
  - destruct (strict_eq _ _); rewrite IH; reflexivity.
Qed.

(** What the handler resolves, in terms of the history alone. *)
Lemma latestVersionInfo_newest_stable (versions : list Version) (l : Version) :
  newest_stable versions = Some l ->
  latestVersionInfo versions
  = option_map (fun oldest => mkLatestInfo (number l) (created_at oldest))
      (last_elt (stable_major_line l versions)).
Proof.
  rewrite newest_stable_first. intros Hl.
  unfold latestVersionInfo.
  rewrite <- (majorVersions_stable_major_line l versions).
  destruct (stableVersions versions) as [|v rest]; [discriminate|].
  injection Hl as ->.
  destruct (last_elt _); reflexivity.
Qed.

(** C1.  The code does not take the earliest record of the latest major
    line, as its comment announces, but the last one in the order of the
    history.  On a history that is not newest first, whose stable records
    of the major line 4 are 4.0.0 (day 0) and 4.1.0 (day 190), the earliest
    [created_at] of the line is day 0, and the date handed to the staleness
    check is day 190. *)
Theorem majorReleaseDate_not_minimum :
  newest_stable history_unordered
    = Some (mkVersion (lit "4.0.0") false 0)
  /\ stable_major_line (mkVersion (lit "4.0.0") false 0) history_unordered
     = [ mkVersion (lit "4.0.0") false 0;
         mkVersion (lit "4.1.0") false 16416000000 ]
  /\ min_created_at
       (stable_major_line (mkVersion (lit "4.0.0") false 0) history_unordered)
     = Some 0%Z
  /\ option_map majorReleaseDate (latestVersionInfo history_unordered)
     = Some 16416000000%Z.
Proof. vm_compute. repeat split. Qed.

(** C2.  On the same history the gate is applied to day 190 and not to the
    first stable release of the major line, day 0.  On day 200 that
    release is 200 days old, more than 180, and a line pinned to 3.2.0 is
    kept at 3.2.0; it moves to 4.0.0 only from day 370 on, to the
    millisecond. *)
Theorem resolve_keeps_constraint_after_180_days :
  min_created_at
    (stable_major_line (mkVersion (lit "4.0.0") false 0) history_unordered)
    = Some 0%Z
  /\ (15552000000 <= 17280000000 - 0)%Z
  /\ resolve 17280000000 (Some (lit "3.2.0")) history_unordered
     = Some (lit "3.2.0")
  /\ resolve (16416000000 + 15552000000 - 1) (Some (lit "3.2.0"))
       history_unordered
     = Some (lit "3.2.0")
  /\ resolve (16416000000 + 15552000000) (Some (lit "3.2.0"))
       history_unordered
     = Some (lit "4.0.0").
Proof. vm_compute. repeat split; discriminate. Qed.

Lemma strict_eq_refl (x : num) : x <> NaN -> strict_eq x x = true.
Proof.
  destruct x as [|b|z]; intros H; simpl.
  - contradiction.
  - apply Bool.eqb_reflx.
  - apply Z.eqb_refl.
Qed.


(** With a numeric leading component the latest stable record is itself
    in its major line, so the promise resolves an object. *)
Lemma latestVersionInfo_some (versions : list Version) (v : Version)
    (rest : list Version) :
  stableVersions versions = v :: rest ->
  major_of (number v) <> NaN ->
  exists date, latestVersionInfo versions = Some (mkLatestInfo (number v) date).
Proof.
  intros Hst Hnum. unfold latestVersionInfo. rewrite Hst.
  unfold majorVersions. cbn [filter].
  rewrite (@strict_eq_refl _ Hnum).
  match goal with
  | |- context [last_elt (v :: ?l)] =>
      destruct (last_elt_cons l v) as [oldest ->]
  end.
  eexists. reflexivity.
Qed.





(** X19.  The gate on a history in registry order.  Let [l] be the newest
    stable release, its leading component a number, and [d] the earliest
    [created_at] among the stable records of its major line, these records
    standing newest first.  A line pinned to another major line moves to
    the number of [l] when [d] is at least 180 days (15552000000 ms) before
    [today], and keeps its constraint when it is less. *)
Theorem resolve_new_major_gate :
  forall (today d : Z) (versions : list Version) (l : Version)
         (current : jsstring),
    newest_stable versions = Some l ->
    major_of (number l) <> NaN ->
    Sorted newest_first (stable_major_line l versions) ->
    min_created_at (stable_major_line l versions) = Some d ->
    current <> [] ->
    strict_eq (majorPart current) (majorPart (number l)) = false ->
    ((15552000000 <= today - d)%Z ->
       resolve today (Some current) versions = Some (number l))
    /\ ((today - d < 15552000000)%Z ->
       resolve today (Some current) versions = Some current).
Proof.
  intros today d versions l current Hl Hnum Hs Hmin Hne Hmaj.
  rewrite (@min_created_at_newest_first _ Hs) in Hmin.
  unfold resolve. rewrite (latestVersionInfo_newest_stable _ Hl).
  destruct (last_elt (stable_major_line l versions)) as [oldest|];
    [|discriminate].
  cbn [option_map] in *. injection Hmin as <-.
  cbn [latest majorReleaseDate]. unfold determineTargetVersion.
  destruct current as [|c cur]; [contradiction|].
  rewrite Hmaj, threshold_days_ms.
  change (MAJOR_VERSION_AGE_THRESHOLD * MS_PER_DAY)%Z with 15552000000%Z.
  split; intros Hage.
  - apply Z.leb_le in Hage. rewrite Hage. reflexivity.
  - apply Z.leb_gt in Hage. rewrite Hage. reflexivity.
Qed.

Lemma resolve_new_major_gate_witness :
  resolve 34560000000 (Some (lit "1.4.0")) history_2x = Some (lit "2.3.0")
  /\ resolve 24191999999 (Some (lit "1.4.0")) history_2x = Some (lit "1.4.0").
Proof.
  assert (Hnum : major_of (lit "2.3.0") <> NaN) by (vm_compute; discriminate).
  assert (Hs : Sorted newest_first
                 (stable_major_line
                    (mkVersion (lit "2.3.0") false (300 * MS_PER_DAY))
                    history_2x))
    by (repeat constructor; vm_compute; discriminate).
  split.
  - apply (proj1 (@resolve_new_major_gate 34560000000 8640000000 history_2x
                    (mkVersion (lit "2.3.0") false (300 * MS_PER_DAY))
                    (lit "1.4.0") eq_refl Hnum Hs eq_refl
                    ltac:(discriminate) eq_refl)).
    vm_compute; discriminate.
  - apply (proj2 (@resolve_new_major_gate 24191999999 8640000000 history_2x
                    (mkVersion (lit "2.3.0") false (300 * MS_PER_DAY))
                    (lit "1.4.0") eq_refl Hnum Hs eq_refl
                    ltac:(discriminate) eq_refl)).
    reflexivity.
Defined.

(** C10.  The resolver can downgrade within a major line: a line pinned to
    2.9.0, with 2.3.0 the newest stable release, is moved to 2.3.0, at any
    time. *)
Theorem resolve_can_downgrade :
  option_map number (first (stableVersions history_2x)) = Some (lit "2.3.0")
  /\ version_ltb (lit "2.3.0") (lit "2.9.0") = true
  /\ strict_eq (majorPart (lit "2.9.0")) (majorPart (lit "2.3.0")) = true
  /\ (forall today : Z,
        resolve today (Some (lit "2.9.0")) history_2x = Some (lit "2.3.0"))
  /\ (forall today date : Z,
        determineTargetVersion today (Some (lit "2.9.0")) (lit "2.3.0") date
        = lit "2.3.0").
Proof.
  repeat split; intros; reflexivity.
Qed.

(* ===================================================================== *)
(** ** Properties of the loop of [update] *)
(* ===================================================================== *)

Lemma search_some (A : Type) (m : jsstring -> option A) (s : jsstring) (x : A) :
  search m s = Some x ->
  exists a t, s = a ++ t /\ m t = Some x.
Proof.
  induction s as [|c s IH]; cbn [search].
  - destruct (m []) eqn:Hm; [|discriminate].
    intros H; injection H as ->. exists [], []. auto.
  - destruct (m (c :: s)) eqn:Hm.
    + intros H; injection H as ->. exists [], (c :: s). auto.
    + intros H. destruct (IH H) as (a & t & -> & Ht).
      exists (c :: a), t. auto.
Qed.

Lemma match_gem_at_nonempty (s name : jsstring) :
  match_gem_at s = Some name -> name <> [].
Proof.
  unfold match_gem_at.
  destruct (stripPrefix s (lit "gem")) as [r|]; [|discriminate].
  destruct (span is_space r) as [ws r1].
  destruct ws as [|w ws]; [discriminate|].
  destruct r1 as [|q r2]; [discriminate|].
  destruct (is_quote q); [|discriminate].
  destruct (span not_quote r2) as [n r3].
  destruct n as [|x n]; [discriminate|].
  destruct r3 as [|q' r4]; [discriminate|].
  destruct (is_quote q'); [|discriminate].
  intros H; injection H as <-. discriminate.
Qed.

(** The name extracted by [parseGemLine] is never the empty string. *)
Lemma parseGemLine_name_nonempty (line name : jsstring) :
  gemName (parseGemLine line) = Some name -> name <> [].
Proof.
  unfold parseGemLine.
  destruct (search match_gem_at line) as [n|] eqn:Hs; cbn [gemName];
    [|discriminate].
  intros H; injection H as ->.
  destruct (search_some _ _ Hs) as (a & t & _ & Ht).
  exact (match_gem_at_nonempty _ Ht).
Qed.

Section UpdaterFacts.

Variable World : Type.
Variable request : jsstring -> World -> Response * World.
Variable clock : World -> Z.

Local Abbreviation run_line := (updateLine request clock).
Local Abbreviation run_lines := (updateLines request clock).

(** The loop on two stretches of lines: the second is run in the world
    left by the first, unless the first throws. *)
Lemma updateLines_app (pre post : list jsstring) :
  forall w,
    run_lines (pre ++ post) w
    = match run_lines pre w with
      | Thrown w' => Thrown w'
      | Done o1 w1 =>
          match run_lines post w1 with
          | Thrown w' => Thrown w'
          | Done o2 w2 => Done (o1 ++ o2) w2
          end
      end.
Proof.
  induction pre as [|l pre IH]; intros w.
  - cbn. destruct (run_lines post w); reflexivity.
  - cbn [app updateLines].
    destruct (run_line l w) as [o w1|w1]; [|reflexivity].
    rewrite (IH w1).
    destruct (run_lines pre w1) as [os w2|w2]; [|reflexivity].
    destruct (run_lines post w2); reflexivity.
Qed.

Lemma updateLines_cons_inv (line : jsstring) (rest outs : list jsstring)
    (w wf : World) :
  run_lines (line :: rest) w = Done outs wf ->
  exists out w1 os,
    run_line line w = Done out w1
    /\ run_lines rest w1 = Done os wf
    /\ outs = out :: os.
Proof.
  cbn [updateLines].
  destruct (run_line line w) as [out w1|w1]; [|discriminate].
  destruct (run_lines rest w1) as [os w2|w2] eqn:Hr; [|discriminate].
  intros H. injection H as H1 H2. subst outs wf. exists out, w1, os.
  repeat split. exact Hr.
Qed.

Lemma updateLines_app_inv (pre post outs : list jsstring) (w wf : World) :
  run_lines (pre ++ post) w = Done outs wf ->
  exists o1 w1 o2,
    run_lines pre w = Done o1 w1
    /\ run_lines post w1 = Done o2 wf
    /\ outs = o1 ++ o2.
Proof.
  rewrite updateLines_app.
  destruct (run_lines pre w) as [o1 w1|w1]; [|discriminate].
  destruct (run_lines post w1) as [o2 w2|w2] eqn:Hr; [|discriminate].
  intros H. injection H as H1 H2. subst outs wf. exists o1, w1, o2.
  repeat split. exact Hr.
Qed.

Lemma updateLines_length (lines : list jsstring) :
  forall w outs wf,
    run_lines lines w = Done outs wf ->
    List.length outs = List.length lines.
Proof.
  induction lines as [|l lines IH]; intros w outs wf H.
  - injection H as <- _. reflexivity.
  - destruct (updateLines_cons_inv _ _ _ H) as (out & w1 & os & _ & Hr & ->).
    cbn [List.length]. rewrite (IH _ _ _ Hr). reflexivity.
Qed.

(** A line is either pushed as it is, the world untouched or advanced
    by one request, or pushed rebuilt for the name parsed from it. *)
Lemma updateLine_cases (line out : jsstring) (w w' : World) :
  run_line line w = Done out w' ->
  out = line
  \/ exists name version,
       gemName (parseGemLine line) = Some name
       /\ hasAltSource (parseGemLine line) = false
       /\ out = buildGemLine line name version.
Proof.
  unfold updateLine, fetchLatestVersionInfo.
  destruct (is_gem_line line);
    [|intros H; injection H as <- _; left; reflexivity].
  destruct (gemName (parseGemLine line)) as [[|c n]|] eqn:Hn;
    try (intros H; injection H as <- _; left; reflexivity).
  destruct (hasAltSource (parseGemLine line)) eqn:Ha;
    [intros H; injection H as <- _; left; reflexivity|].
  destruct (has_unescaped_characters _); [discriminate|].
  destruct (request (c :: n) w) as [r w1].
  destruct (resolveLatestInfo r) as [info|];
    intros H; injection H as <- _; [|left; reflexivity].
  right. eexists. eexists. repeat split.
Qed.

(** The lines pushed by a loop that completes: the line read at each
    position, or that line rebuilt. *)
Lemma updateLines_positions (lines : list jsstring) :
  forall w outs wf,
    run_lines lines w = Done outs wf ->
    Forall2
      (fun line out =>
         out = line
         \/ exists name version,
              gemName (parseGemLine line) = Some name
              /\ out = buildGemLine line name version)
      lines outs.
Proof.
  induction lines as [|l lines IH]; intros w outs wf H.
  - injection H as <- _. constructor.
  - destruct (updateLines_cons_inv _ _ _ H) as (out & w1 & os & Hl & Hr & ->).
    constructor; [|exact (IH _ _ _ Hr)].
    destruct (updateLine_cases _ _ Hl) as [Ho|(n & v & Hn & _ & Ho)].
    + left. exact Ho.
    + right. exists n, v. auto.
Qed.

(** A declaration whose request can be sent and gives no usable history
    is pushed as it is, in the world left by the request. *)
Lemma updateLine_without_history (line name : jsstring) (w : World) :
  is_gem_line line = true ->
  gemName (parseGemLine line) = Some name ->
  hasAltSource (parseGemLine line) = false ->
  has_unescaped_characters (request_path name) = false ->
  resolveLatestInfo (fst (request name w)) = None ->
  run_line line w = Done line (snd (request name w)).
Proof.
  intros Hgem Hname Halt Hpath Hno.
  unfold updateLine, fetchLatestVersionInfo.
  rewrite Hgem, Hname, Halt.
  pose proof (parseGemLine_name_nonempty _ Hname) as Hne.
  destruct name as [|c n]; [contradiction|].
  rewrite Hpath.
  destruct (request (c :: n) w) as [r w1]. cbn [fst snd] in *.
  rewrite Hno. reflexivity.
Qed.

(** X20.  A declaration without an alternate source, whose request can
    be sent and for which the registry gives no usable history (a failure,
    or a history with no stable record), is pushed unchanged, and the loop
    goes on with the lines after it, in the world left by the request. *)
Theorem update_skips_line_without_history :
  forall (pre post outs : list jsstring) (line name : jsstring)
         (w w1 : World),
    is_gem_line line = true ->
    gemName (parseGemLine line) = Some name ->
    hasAltSource (parseGemLine line) = false ->
    has_unescaped_characters (request_path name) = false ->
    run_lines pre w = Done outs w1 ->
    (fst (request name w1) = Failed
     \/ exists versions,
          fst (request name w1) = Body versions
          /\ forallb prerelease versions = true) ->
    run_line line w1 = Done line (snd (request name w1))
    /\ run_lines (pre ++ line :: post) w
       = match run_lines post (snd (request name w1)) with
         | Thrown w' => Thrown w'
         | Done os wf => Done (outs ++ line :: os) wf
         end.
Proof.
  intros pre post outs line name w w1 Hgem Hname Halt Hpath Hpre Hno.
  assert (Hline : run_line line w1 = Done line (snd (request name w1))).
  { apply updateLine_without_history; try assumption.
    destruct Hno as [->|(versions & -> & Hall)]; [reflexivity|].
    cbn [resolveLatestInfo]. unfold latestVersionInfo.
    replace (stableVersions versions) with (@nil Version); [reflexivity|].
    unfold stableVersions. clear -Hall.
    induction versions as [|v r IH]; [reflexivity|].
    cbn [forallb filter] in *. apply andb_true_iff in Hall as [-> Hr].
    exact (IH Hr). }
  split; [exact Hline|].
  rewrite updateLines_app, Hpre. cbn [updateLines]. rewrite Hline.
  destruct (run_lines post (snd (request name w1))); reflexivity.
Qed.

(** C9.  A line whose [hasAltSource] flag is set is pushed as it is, and
    no request is made for it: the world is the one before the line.  In
    the output of the loop the line stands at its position. *)
Theorem update_keeps_alt_source_line :
  forall (pre post : list jsstring) (line : jsstring) (w : World),
    hasAltSource (parseGemLine line) = true ->
    (forall w', run_line line w' = Done line w')
    /\ (forall outs wf,
          run_lines (pre ++ line :: post) w = Done outs wf ->
          nth (List.length pre) outs [] = line).
Proof.
  intros pre post line w Halt.
  assert (Hline : forall w', run_line line w' = Done line w').
  { intros w'. unfold updateLine.
    rewrite Halt.
    destruct (is_gem_line line); [|reflexivity].
    destruct (gemName (parseGemLine line)) as [[|c n]|]; reflexivity. }
  split; [exact Hline|].
  intros outs wf H.
  destruct (updateLines_app_inv _ _ _ H) as (o1 & w1 & o2 & Hpre & Hpost & ->).
  destruct (updateLines_cons_inv _ _ _ Hpost) as (out & w2 & os & Hl & _ & ->).
  rewrite Hline in Hl. injection Hl as <- _.
  rewrite app_nth2; rewrite (updateLines_length _ _ Hpre); [|lia].
  rewrite Nat.sub_diag. reflexivity.
Qed.

End UpdaterFacts.

Lemma update_skips_line_without_history_witness :
  updateLines registry_down (fun _ => 0%Z) gemfile_sample 0%nat
    = Done gemfile_sample 1%nat
  /\ updateLines registry_prerelease_only (fun _ => 0%Z) gemfile_sample []
    = Done gemfile_sample [lit "foo"].
Proof.
  split.
  - exact (proj2 (@update_skips_line_without_history nat registry_down
                    (fun _ => 0%Z)
                    [src "source 'https://rubygems.org'"]
                    [src "gem 'rails', github: 'rails/rails'"]
                    [src "source 'https://rubygems.org'"]
                    (src "gem `foo`, `~> 1.0`") (lit "foo") 0%nat 0%nat
                    eq_refl eq_refl eq_refl eq_refl eq_refl
                    (or_introl eq_refl))).
  - exact (proj2 (@update_skips_line_without_history (list jsstring)
                    registry_prerelease_only (fun _ => 0%Z)
                    [src "source 'https://rubygems.org'"]
                    [src "gem 'rails', github: 'rails/rails'"]
                    [src "source 'https://rubygems.org'"]
                    (src "gem `foo`, `~> 1.0`") (lit "foo") [] []
                    eq_refl eq_refl eq_refl eq_refl eq_refl
                    (or_intror
                       (ex_intro _ [mkVersion (lit "1.0.0.beta1") true 0]
                          (conj eq_refl eq_refl))))).
Defined.

Lemma update_keeps_alt_source_line_witness :
  updateLine registry_4x (fun _ => 0%Z)
    (src "gem 'rails', github: 'rails/rails'") []
    = Done (src "gem 'rails', github: 'rails/rails'") []
  /\ nth 2 [ src "source 'https://rubygems.org'";
             src "gem `foo`, `~> 1.0`";
             src "gem 'rails', github: 'rails/rails'" ] []
     = src "gem 'rails', github: 'rails/rails'".
Proof.
  pose proof (@update_keeps_alt_source_line (list jsstring) registry_4x
                (fun _ => 0%Z)
                [src "source 'https://rubygems.org'"; src "gem `foo`, `~> 1.0`"]
                [] (src "gem 'rails', github: 'rails/rails'") []
                eq_refl) as [H1 H2].
  split; [exact (H1 []) | exact (H2 _ [lit "foo"] eq_refl)].
Defined.

(** C4.  A request that cannot be sent aborts the run.  The name of
    [gem 'foo bar'] holds a space, [https.request] throws on its path, and
    nothing catches: with a registry that is down, where every declaration
    is to be skipped, the loop stops at this line after one request, the
    line and those after it are not pushed, and nothing is written. *)
Theorem update_aborts_on_unescaped_name :
  is_gem_line (src "gem 'foo bar'") = true
  /\ gemName (parseGemLine (src "gem 'foo bar'")) = Some (lit "foo bar")
  /\ hasAltSource (parseGemLine (src "gem 'foo bar'")) = false
  /\ has_unescaped_characters (request_path (lit "foo bar")) = true
  /\ (forall (World : Type) (request : jsstring -> World -> Response * World)
             (clock : World -> Z) (w : World),
        updateLine request clock (src "gem 'foo bar'") w = Thrown w)
  /\ updateLines registry_down (fun _ => 0%Z) gemfile_unescaped 0%nat
     = Thrown 1%nat
  /\ update registry_down (fun _ => 0%Z) (join 10 gemfile_unescaped) 0%nat
     = Thrown 1%nat.
Proof.
  repeat split; intros; reflexivity.
Qed.

(** On the sample the pinned line is rebuilt for the same major line and
    the two others are kept. *)
Example update_sample :
  updateLines registry_4x (fun _ => 0%Z)
    [ src "source 'https://rubygems.org'";
      src "  gem `foo`, `~> 4.0`, require: false";
      src "gem 'rails', github: 'rails/rails'" ] []
  = Done [ src "source 'https://rubygems.org'";
           src "  gem `foo`, `~> 4.1.0`, require: false";
           src "gem 'rails', github: 'rails/rails'" ]
      [lit "foo"].
Proof. vm_compute. reflexivity. Qed.

(* ===================================================================== *)
(** ** Properties of the line rebuilder *)
(* ===================================================================== *)

(** *** Character classes *)

Lemma is_quote_cases (q : char) : is_quote q = true -> q = sq \/ q = dq.
Proof.
  unfold is_quote. intros H. apply orb_true_iff in H.
  destruct H as [H|H]; apply N.eqb_eq in H; auto.
Qed.

Lemma quote_not_space (q : char) : is_quote q = true -> is_space q = false.
Proof. intros H. destruct (is_quote_cases _ H); subst; reflexivity. Qed.

Lemma quote_not_line_terminator (q : char) :
  is_quote q = true -> not_line_terminator q = true.
Proof. intros H. destruct (is_quote_cases _ H); subst; reflexivity. Qed.

Lemma space_not_g (c : char) : is_space c = true -> (103 =? c) = false.
Proof.
  intros H. destruct (N.eqb_spec 103 c) as [<-|]; [discriminate|reflexivity].
Qed.

Lemma space_not_sq (c : char) : is_space c = true -> (sq =? c) = false.
Proof.
  intros H. destruct (N.eqb_spec sq c) as [<-|]; [discriminate|reflexivity].
Qed.

Lemma not_quote_not_sq (c : char) : not_quote c = true -> (sq =? c) = false.
Proof.
  intros H. destruct (N.eqb_spec sq c) as [<-|]; [discriminate|reflexivity].
Qed.

(** *** Runs, prefixes and substrings *)

Lemma span_app (p : char -> bool) (a b : jsstring) :
  forallb p a = true -> stops p b -> span p (a ++ b) = (a, b).
Proof.
  intros Ha Hb. induction a as [|c a IH]; cbn [app span].
  - destruct b as [|x b]; [reflexivity|]. cbn in Hb. cbn [span].
    rewrite Hb. reflexivity.
  - cbn [forallb] in Ha. apply andb_true_iff in Ha as [Hc Ha].
    rewrite Hc, (IH Ha). reflexivity.
Qed.

Lemma span_spec (p : char -> bool) (s : jsstring) :
  s = fst (span p s) ++ snd (span p s)
  /\ forallb p (fst (span p s)) = true.
Proof.
  induction s as [|c s [IH1 IH2]]; cbn [span]; [auto|].
  destruct (p c) eqn:Hc; [|auto].
  destruct (span p s) as [a b]. cbn [fst snd app forallb] in *.
  rewrite Hc, IH2. split; [f_equal; exact IH1 | reflexivity].
Qed.

Lemma stripPrefix_app (p r : jsstring) : stripPrefix (p ++ r) p = Some r.
Proof.
  induction p as [|c p IH]; cbn [app stripPrefix].
  - destruct r; reflexivity.
  - rewrite N.eqb_refl. exact IH.
Qed.

Lemma stripPrefix_some (p : jsstring) :
  forall s r, stripPrefix s p = Some r -> s = p ++ r.
Proof.
  induction p as [|c p IH]; intros s r.
  - destruct s; cbn [stripPrefix]; intros H; injection H as <-; reflexivity.
  - destruct s as [|x s]; cbn [stripPrefix]; [discriminate|].
    destruct (N.eqb_spec c x) as [->|]; [|discriminate].
    intros H. rewrite (IH _ _ H). reflexivity.
Qed.

Lemma startsWith_app (p r : jsstring) : startsWith (p ++ r) p = true.
Proof.
  induction p as [|c p IH]; cbn [app startsWith].
  - destruct r; reflexivity.
  - rewrite N.eqb_refl. exact IH.
Qed.

Lemma startsWith_nil (s : jsstring) : startsWith s [] = true.
Proof. destruct s; reflexivity. Qed.

Lemma startsWith_app_l (p : jsstring) :
  forall a b, startsWith a p = true -> startsWith (a ++ b) p = true.
Proof.
  induction p as [|c p IH]; intros a b H.
  - apply startsWith_nil.
  - destruct a as [|x a]; [discriminate|].
    cbn [app startsWith] in *. apply andb_true_iff in H as [Hc H].
    rewrite Hc. exact (IH _ _ H).
Qed.

Lemma includes_unfold (s p : jsstring) :
  includes s p
  = (startsWith s p || match s with [] => false | _ :: t => includes t p end).
Proof. destruct s; reflexivity. Qed.

Lemma includes_app_r (a b p : jsstring) :
  includes b p = true -> includes (a ++ b) p = true.
Proof.
  intros H. induction a as [|c a IH]; [exact H|].
  cbn [app]. rewrite includes_unfold, IH. apply orb_true_r.
Qed.

Lemma includes_app_l (p a b : jsstring) :
  includes a p = true -> includes (a ++ b) p = true.
Proof.
  induction a as [|c a IH]; rewrite includes_unfold; intros H.
  - rewrite orb_false_r in H. destruct p; [|discriminate].
    rewrite includes_unfold, startsWith_nil. reflexivity.
  - cbn [app]. rewrite includes_unfold.
    apply orb_true_iff in H as [H|H].
    + pose proof (startsWith_app_l _ _ b H) as H'. cbn [app] in H'.
      rewrite H'. reflexivity.
    + rewrite (IH H). apply orb_true_r.
Qed.

(** A substring of a substring is a substring. *)
Lemma includes_infix (p x a b : jsstring) :
  includes x p = true -> includes (a ++ x ++ b) p = true.
Proof. intros H. apply includes_app_r, includes_app_l, H. Qed.

Lemma includes_occurrence (a p b : jsstring) : includes (a ++ p ++ b) p = true.
Proof.
  apply includes_app_r. rewrite includes_unfold, startsWith_app. reflexivity.
Qed.

(** A pattern does not start where its first unit does not occur. *)
Lemma includes_skip (c : char) (p a b : jsstring) :
  forallb (fun x => negb (c =? x)) a = true ->
  includes (a ++ b) (c :: p) = includes b (c :: p).
Proof.
  induction a as [|x a IH]; intros H; [reflexivity|].
  cbn [forallb] in H. apply andb_true_iff in H as [Hx H].
  cbn [app]. rewrite includes_unfold. cbn [startsWith].
  apply negb_true_iff in Hx. rewrite Hx. cbn [andb orb]. exact (IH H).
Qed.

Lemma search_skip (A : Type) (m : jsstring -> option A) (a b : jsstring) :
  (forall c t, is_space c = true -> m (c :: t) = None) ->
  forallb is_space a = true ->
  search m (a ++ b) = search m b.
Proof.
  intros Hm. induction a as [|c a IH]; intros Ha; [reflexivity|].
  cbn [forallb] in Ha. apply andb_true_iff in Ha as [Hc Ha].
  cbn [app search]. rewrite (Hm _ _ Hc). exact (IH Ha).
Qed.

Lemma search_here (A : Type) (m : jsstring -> option A) (s : jsstring) (x : A) :
  m s = Some x -> search m s = Some x.
Proof. intros H. destruct s; cbn [search]; rewrite H; reflexivity. Qed.

(** *** White space at the ends *)

Lemma forallb_rev (p : char -> bool) (s : jsstring) :
  forallb p (rev s) = forallb p s.
Proof.
  induction s as [|c s IH]; [reflexivity|].
  cbn [rev forallb]. rewrite forallb_app, IH. cbn [forallb].
  rewrite andb_true_r. apply andb_comm.
Qed.

Lemma dropWhile_spec (p : char -> bool) (s : jsstring) :
  exists a, s = a ++ dropWhile p s /\ forallb p a = true.
Proof.
  induction s as [|c s (a & IH1 & IH2)]; [exists []; auto|].
  cbn [dropWhile]. destruct (p c) eqn:Hc.
  - exists (c :: a). cbn [app forallb]. rewrite Hc, IH2.
    split; [f_equal; exact IH1 | reflexivity].
  - exists []. auto.
Qed.

Lemma dropWhile_idem (p : char -> bool) (s : jsstring) :
  dropWhile p (dropWhile p s) = dropWhile p s.
Proof.
  induction s as [|c s IH]; [reflexivity|].
  cbn [dropWhile]. destruct (p c) eqn:Hc; [exact IH|].
  cbn [dropWhile]. rewrite Hc. reflexivity.
Qed.

Lemma forallb_dropWhile (p : char -> bool) (s : jsstring) :
  forallb p (dropWhile p s) = forallb p s.
Proof.
  induction s as [|c s IH]; [reflexivity|].
  cbn [dropWhile]. destruct (p c) eqn:Hc.
  - cbn [forallb]. rewrite Hc. exact IH.
  - reflexivity.
Qed.

Lemma dropWhile_all (p : char -> bool) (s : jsstring) :
  forallb p s = true -> dropWhile p s = [].
Proof.
  induction s as [|c s IH]; [reflexivity|].
  cbn [forallb dropWhile]. intros H. apply andb_true_iff in H as [Hc H].
  rewrite Hc. exact (IH H).
Qed.

Lemma dropWhile_stops (p : char -> bool) (s : jsstring) :
  stops p s -> dropWhile p s = s.
Proof. destruct s as [|c s]; [reflexivity|]. cbn. intros ->. reflexivity. Qed.

Lemma trimEnd_prefix (s : jsstring) :
  exists ws, s = trimEnd s ++ ws /\ blank ws = true.
Proof.
  unfold trimEnd, blank.
  destruct (dropWhile_spec is_space (rev s)) as (a & Ha & Hs).
  exists (rev a). rewrite forallb_rev. split; [|exact Hs].
  rewrite <- rev_app_distr, <- Ha, rev_involutive. reflexivity.
Qed.

Lemma trimEnd_idem (s : jsstring) : trimEnd (trimEnd s) = trimEnd s.
Proof. unfold trimEnd. rewrite rev_involutive, dropWhile_idem. reflexivity. Qed.

Lemma blank_trimEnd (s : jsstring) : blank (trimEnd s) = blank s.
Proof.
  unfold blank, trimEnd. rewrite forallb_rev, forallb_dropWhile, forallb_rev.
  reflexivity.
Qed.

Lemma blank_trim (s : jsstring) : blank (trim s) = blank s.
Proof.
  unfold trim. rewrite blank_trimEnd. unfold blank, trimStart.
  apply forallb_dropWhile.
Qed.

(** The test [afterGem.trim().length > 0] holds when some unit of
    [afterGem] is not white space. *)
Lemma trim_length_blank (s : jsstring) :
  (0 <? List.length (trim s))%nat = negb (blank s).
Proof.
  destruct (blank s) eqn:Hb.
  - unfold trim, trimEnd, trimStart.
    rewrite (dropWhile_all is_space s Hb). reflexivity.
  - destruct (trim s) as [|c t] eqn:Ht; [|reflexivity].
    rewrite <- blank_trim, Ht in Hb. discriminate.
Qed.

Lemma remaining_blank (s : jsstring) :
  remaining s = if blank s then [] else trimEnd s.
Proof.
  unfold remaining. rewrite trim_length_blank. destruct (blank s); reflexivity.
Qed.

Lemma remaining_idem (s : jsstring) : remaining (remaining s) = remaining s.
Proof.
  rewrite (remaining_blank s). destruct (blank s) eqn:Hb; [reflexivity|].
  rewrite remaining_blank, blank_trimEnd, Hb. apply trimEnd_idem.
Qed.

Lemma remaining_prefix (s : jsstring) : exists b, s = remaining s ++ b.
Proof.
  rewrite remaining_blank. destruct (blank s).
  - exists s. reflexivity.
  - destruct (trimEnd_prefix s) as (ws & H & _). exists ws. exact H.
Qed.

(** *** The pieces of [buildGemLine] on a declaration *)

Lemma forallb_imp (p q : char -> bool) (s : jsstring) :
  (forall c, p c = true -> q c = true) ->
  forallb p s = true -> forallb q s = true.
Proof.
  intros Hpq. induction s as [|c s IH]; [reflexivity|].
  cbn [forallb]. intros H. apply andb_true_iff in H as [Hc H].
  rewrite (Hpq _ Hc), (IH H). reflexivity.
Qed.

Lemma indent_of_app (indent r : jsstring) :
  blank indent = true -> stops is_space r -> indent_of (indent ++ r) = indent.
Proof. intros Hi Hr. unfold indent_of. rewrite (span_app _ _ _ Hi Hr). reflexivity. Qed.

Lemma indent_of_blank (line : jsstring) : blank (indent_of line) = true.
Proof. apply span_spec. Qed.

(** The pattern of [afterGemMatch] starts with [g]: it does not match on
    white space. *)
Lemma match_after_gem_at_space (name : jsstring) (c : char) (t : jsstring) :
  is_space c = true -> match_after_gem_at name (c :: t) = None.
Proof.
  intros Hc. unfold match_after_gem_at.
  change (lit "gem") with [103; 101; 109]. cbn [stripPrefix].
  rewrite (space_not_g _ Hc). reflexivity.
Qed.

(** On a declaration the group of [afterGemMatch] is the text after the
    name token and the white space that follows it, up to the first line
    terminator. *)
Lemma afterGem_of_declaration
    (indent ws1 name ws2 tail eol : jsstring) (q1 q2 : char) :
  blank indent = true ->
  ws1 <> [] -> blank ws1 = true ->
  is_quote q1 = true -> is_quote q2 = true ->
  blank ws2 = true ->
  stops is_space (tail ++ eol) ->
  forallb not_line_terminator tail = true ->
  stops not_line_terminator eol ->
  afterGem_of
    (indent ++ lit "gem" ++ ws1 ++ q1 :: name ++ q2 :: ws2 ++ tail ++ eol) name
  = tail.
Proof.
  intros Hi Hne Hw1 Hq1 Hq2 Hw2 Ht Hlt He.
  unfold afterGem_of.
  rewrite (search_skip _ _ _ (match_after_gem_at_space name) Hi).
  rewrite (@search_here _ _ _ tail); [reflexivity|].
  unfold match_after_gem_at.
  rewrite stripPrefix_app.
  rewrite (span_app is_space ws1 (q1 :: _) Hw1 (quote_not_space _ Hq1)).
  destruct ws1 as [|w ws1]; [contradiction|].
  rewrite Hq1, stripPrefix_app, Hq2.
  rewrite (span_app is_space ws2 (tail ++ eol) Hw2 Ht).
  rewrite (span_app not_line_terminator tail eol Hlt He).
  reflexivity.
Qed.

(** A constraint token at the head of [afterGem] is removed. *)
Lemma strip_constraint_token (ws3 c rest : jsstring) (q3 q4 : char) :
  blank ws3 = true -> is_quote q3 = true ->
  forallb not_quote c = true -> is_quote q4 = true ->
  strip_constraint (44 :: ws3 ++ q3 :: c ++ q4 :: rest) = rest.
Proof.
  intros Hw Hq3 Hc Hq4. unfold strip_constraint. rewrite N.eqb_refl.
  rewrite (span_app is_space ws3 (q3 :: _) Hw (quote_not_space _ Hq3)).
  rewrite Hq3.
  rewrite (span_app not_quote c (q4 :: rest) Hc);
    [|unfold stops, not_quote; rewrite Hq4; reflexivity].
  cbn [snd]. rewrite Hq4. reflexivity.
Qed.

(** The rebuilt line, the template of the code with its last append made
    explicit. *)
Lemma buildGemLine_eq (line name version : jsstring) :
  buildGemLine line name version
  = indent_of line ++ lit "gem "
      ++ detect_quote line name :: name
      ++ detect_quote line name :: lit ", "
      ++ detect_quote line name :: lit "~> " ++ version
      ++ detect_quote line name
      :: remaining (strip_constraint (afterGem_of line name)).
Proof.
  unfold buildGemLine. cbn zeta.
  repeat (rewrite <- ?app_assoc; cbn [app]).
  reflexivity.
Qed.

(** The rebuilt line of a pinned declaration, whatever its spacing and
    its quotes. *)
Lemma buildGemLine_pinned
    (indent ws1 name ws2 ws3 c rest eol version : jsstring)
    (q1 q2 q3 q4 : char) :
  blank indent = true ->
  ws1 <> [] -> blank ws1 = true ->
  is_quote q1 = true -> is_quote q2 = true ->
  blank ws2 = true ->
  blank ws3 = true -> forallb not_line_terminator ws3 = true ->
  is_quote q3 = true ->
  forallb not_quote c = true -> forallb not_line_terminator c = true ->
  is_quote q4 = true ->
  forallb not_line_terminator rest = true ->
  stops not_line_terminator eol ->
  forall line,
    line = indent ++ lit "gem" ++ ws1 ++ q1 :: name ++ q2 :: ws2
             ++ 44 :: ws3 ++ q3 :: c ++ q4 :: rest ++ eol ->
    buildGemLine line name version
    = indent ++ lit "gem "
        ++ detect_quote line name :: name
        ++ detect_quote line name :: lit ", "
        ++ detect_quote line name :: lit "~> " ++ version
        ++ detect_quote line name :: remaining rest.
Proof.
  intros Hi Hne Hw1 Hq1 Hq2 Hw2 Hw3 Hl3 Hq3 Hc Hlc Hq4 Hlr He line Hline.
  rewrite buildGemLine_eq.
  assert (Hind : indent_of line = indent).
  { rewrite Hline. apply indent_of_app; [exact Hi | reflexivity]. }
  assert (Hafter : afterGem_of line name
                   = 44 :: ws3 ++ q3 :: c ++ q4 :: rest).
  { rewrite Hline.
    replace (44 :: ws3 ++ q3 :: c ++ q4 :: rest ++ eol)
      with ((44 :: ws3 ++ q3 :: c ++ q4 :: rest) ++ eol)
      by (cbn [app]; rewrite <- !app_assoc; cbn [app];
          rewrite <- !app_assoc; reflexivity).
    apply afterGem_of_declaration; auto.
    - reflexivity.
    - cbn [forallb]. rewrite !forallb_app. cbn [forallb].
      rewrite forallb_app. cbn [forallb].
      rewrite Hl3, Hlc, Hlr.
      rewrite (quote_not_line_terminator _ Hq3).
      rewrite (quote_not_line_terminator _ Hq4). reflexivity. }
  rewrite Hind, Hafter, (strip_constraint_token ws3 c rest q3 q4 Hw3 Hq3 Hc Hq4).
  reflexivity.
Qed.

Lemma remaining_trimmed (rest : jsstring) :
  trimEnd rest = rest -> remaining rest = rest.
Proof.
  intros H. rewrite remaining_blank. destruct (blank rest) eqn:Hb; [|exact H].
  rewrite <- H. unfold trimEnd.
  rewrite dropWhile_all; [reflexivity|].
  rewrite forallb_rev. exact Hb.
Qed.

(** *** The quote style *)

Lemma first_quoted_occurrence_spec (name line : jsstring) (q0 : char) :
  first_quoted_occurrence line name = Some q0 ->
  is_quote q0 = true /\ includes line (q0 :: name ++ [q0]) = true.
Proof.
  induction line as [|q t IH]; cbn [first_quoted_occurrence]; [discriminate|].
  destruct (is_quote q) eqn:Hq; cbn [andb].
  - destruct (stripPrefix t name) as [[|q' r]|] eqn:Hs;
      try (intros H; destruct (IH H) as [H1 H2]; split; [exact H1|];
           rewrite includes_unfold, H2; apply orb_true_r).
    destruct (N.eqb_spec q' q) as [->|Hne].
    + intros H; injection H as <-. split; [exact Hq|].
      apply stripPrefix_some in Hs. rewrite Hs.
      replace (q :: name ++ q :: r) with ([] ++ (q :: name ++ [q]) ++ r)
        by (cbn [app]; rewrite <- app_assoc; reflexivity).
      apply includes_occurrence.
    + intros H; destruct (IH H) as [H1 H2]; split; [exact H1|].
      rewrite includes_unfold, H2; apply orb_true_r.
  - intros H; destruct (IH H) as [H1 H2]; split; [exact H1|].
    rewrite includes_unfold, H2; apply orb_true_r.
Qed.

Lemma detect_quote_is_quote (line name : jsstring) :
  is_quote (detect_quote line name) = true.
Proof. unfold detect_quote. destruct (includes _ _); reflexivity. Qed.

(** X21.  The style detected is that of the first quoted occurrence of the
    name when that occurrence is single-quoted, and when the name stands
    nowhere in the line between single quotes. *)
Theorem detect_quote_first_occurrence :
  forall (line name : jsstring) (q0 : char),
    first_quoted_occurrence line name = Some q0 ->
    q0 = sq \/ includes line (sq :: name ++ [sq]) = false ->
    detect_quote line name = q0.
Proof.
  intros line name q0 Hfirst Hcase.
  destruct (first_quoted_occurrence_spec _ _ Hfirst) as [Hq0 Hinc].
  unfold detect_quote. destruct Hcase as [->|Hno].
  - rewrite Hinc. reflexivity.
  - rewrite Hno.
    destruct (is_quote_cases _ Hq0) as [->| ->]; [|reflexivity].
    rewrite Hinc in Hno. discriminate.
Qed.

Lemma detect_quote_first_occurrence_witness :
  detect_quote (src "gem 'foo', `1.0`") (lit "foo") = sq
  /\ detect_quote (src "gem `foo` # and 'bar'") (lit "foo") = dq.
Proof.
  split.
  - exact (@detect_quote_first_occurrence (src "gem 'foo', `1.0`")
             (lit "foo") sq eq_refl (or_introl eq_refl)).
  - exact (@detect_quote_first_occurrence (src "gem `foo` # and 'bar'")
             (lit "foo") dq eq_refl (or_intror eq_refl)).
Defined.

(** C6.  The detection of the quote style looks for the name between
    single quotes anywhere in the line, not at the name token.  On a
    declaration whose name is in double quotes, followed by a comment that
    holds the name in single quotes, the first quoted occurrence of the name
    is double-quoted, and the line is rebuilt with single quotes: it has
    not the shape of the template with the quote of that occurrence. *)
Theorem buildGemLine_quote_from_comment :
  first_quoted_occurrence (src "gem `foo`, `1.0` # not 'foo'") (lit "foo")
    = Some dq
  /\ detect_quote (src "gem `foo`, `1.0` # not 'foo'") (lit "foo") = sq
  /\ buildGemLine (src "gem `foo`, `1.0` # not 'foo'") (lit "foo") (lit "2.0")
     = src "gem 'foo', '~> 2.0' # not 'foo'"
  /\ ~ exists trailing,
         buildGemLine (src "gem `foo`, `1.0` # not 'foo'")
           (lit "foo") (lit "2.0")
         = indent_of (src "gem `foo`, `1.0` # not 'foo'") ++ lit "gem "
             ++ dq :: lit "foo" ++ dq :: lit ", "
             ++ dq :: lit "~> " ++ lit "2.0" ++ dq :: trailing.
Proof.
  split; [reflexivity|]. split; [reflexivity|]. split; [reflexivity|].
  intros [trailing H]. vm_compute in H. discriminate H.
Qed.

(** *** Rebuilding a rebuilt line *)

Lemma match_after_gem_at_spec (name t g : jsstring) :
  match_after_gem_at name t = Some g ->
  (exists a b, t = a ++ g ++ b) /\ forallb not_line_terminator g = true.
Proof.
  unfold match_after_gem_at.
  destruct (stripPrefix t (lit "gem")) as [r|] eqn:H1; [|discriminate].
  pose proof (span_spec is_space r) as [Hr _].
  destruct (span is_space r) as [ws r1]. cbn [fst snd] in Hr.
  destruct ws as [|w ws]; [discriminate|].
  destruct r1 as [|q r2]; [discriminate|].
  destruct (is_quote q); [|discriminate].
  destruct (stripPrefix r2 name) as [[|q' r3]|] eqn:H3; try discriminate.
  destruct (is_quote q'); [|discriminate].
  pose proof (span_spec is_space r3) as [Hr3 _].
  destruct (span is_space r3) as [ws' r4]. cbn [fst snd] in Hr3.
  pose proof (span_spec not_line_terminator r4) as [Hr4 Hlt].
  intros H; injection H as <-.
  split; [|exact Hlt].
  apply stripPrefix_some in H1. apply stripPrefix_some in H3.
  exists (lit "gem" ++ (w :: ws) ++ q :: name ++ q' :: ws'),
         (snd (span not_line_terminator r4)).
  rewrite <- Hr4, H1, Hr, H3, Hr3.
  repeat (rewrite <- ?app_assoc; cbn [app]). reflexivity.
Qed.

Lemma afterGem_of_spec (line name : jsstring) :
  (exists a b, line = a ++ afterGem_of line name ++ b)
  /\ forallb not_line_terminator (afterGem_of line name) = true.
Proof.
  unfold afterGem_of.
  destruct (search (match_after_gem_at name) line) as [g|] eqn:Hs.
  - destruct (search_some _ _ Hs) as (a & t & -> & Ht).
    destruct (match_after_gem_at_spec _ _ Ht) as [(a' & b & ->) Hlt].
    split; [|exact Hlt].
    exists (a ++ a'), b. rewrite <- app_assoc. reflexivity.
  - split; [|reflexivity]. exists line, []. rewrite app_nil_r. reflexivity.
Qed.

Lemma strip_constraint_suffix (g : jsstring) :
  exists a, g = a ++ strip_constraint g.
Proof.
  unfold strip_constraint.
  destruct g as [|x r]; [exists []; reflexivity|].
  destruct (x =? 44); [|exists []; reflexivity].
  pose proof (span_spec is_space r) as [Hr _].
  destruct (span is_space r) as [ws r1]. cbn [fst snd] in Hr.
  destruct r1 as [|q r2]; [exists []; reflexivity|].
  destruct (is_quote q); [|exists []; reflexivity].
  pose proof (span_spec not_quote r2) as [Hr2 _].
  destruct (snd (span not_quote r2)) as [|q' r3]; [exists []; reflexivity|].
  destruct (is_quote q'); [|exists []; reflexivity].
  exists (x :: ws ++ q :: fst (span not_quote r2) ++ [q']).
  rewrite Hr at 1. rewrite Hr2 at 1.
  repeat (rewrite <- ?app_assoc; cbn [app]). reflexivity.
Qed.

(** The trailing text of the rebuilt line is a part of the original line
    and holds no line terminator. *)
Lemma rebuilt_trailing_spec (line name : jsstring) :
  let trailing := remaining (strip_constraint (afterGem_of line name)) in
  (exists a b, line = a ++ trailing ++ b)
  /\ forallb not_line_terminator trailing = true.
Proof.
  cbn zeta.
  destruct (afterGem_of_spec line name) as [(a & b & Hl) Hlt].
  destruct (strip_constraint_suffix (afterGem_of line name)) as [a' Hs].
  destruct (remaining_prefix (strip_constraint (afterGem_of line name)))
    as [b' Hr].
  split.
  - exists (a ++ a'), (b' ++ b).
    rewrite Hl at 1. rewrite Hs at 1. rewrite Hr at 1.
    repeat (rewrite <- ?app_assoc; cbn [app]). reflexivity.
  - rewrite Hs, Hr, !forallb_app in Hlt.
    apply andb_true_iff in Hlt as [_ Hlt].
    apply andb_true_iff in Hlt as [Hlt _]. exact Hlt.
Qed.

Lemma space_is_not_sq (c : char) : is_space c = true -> negb (sq =? c) = true.
Proof. intros H. rewrite (space_not_sq _ H). reflexivity. Qed.

Lemma not_quote_is_not_sq (c : char) :
  not_quote c = true -> negb (sq =? c) = true.
Proof. intros H. rewrite (not_quote_not_sq _ H). reflexivity. Qed.

(** The style detected on the rebuilt line is the style it was built
    with. *)
Lemma detect_quote_rebuilt (line name version : jsstring) :
  forallb not_quote name = true ->
  forallb not_quote version = true ->
  detect_quote (buildGemLine line name version) name = detect_quote line name.
Proof.
  intros Hn Hv. rewrite buildGemLine_eq.
  unfold detect_quote at 1.
  destruct (rebuilt_trailing_spec line name) as [(a & b & Hinf) _].
  cbn zeta in Hinf.
  set (trailing := remaining (strip_constraint (afterGem_of line name))) in *.
  unfold detect_quote.
  destruct (includes line (sq :: name ++ [sq])) eqn:Hinc.
  - replace (indent_of line ++ lit "gem " ++ sq :: name ++ sq :: lit ", "
               ++ sq :: lit "~> " ++ version ++ sq :: trailing)
      with ((indent_of line ++ lit "gem ") ++ (sq :: name ++ [sq])
              ++ (lit ", " ++ sq :: lit "~> " ++ version ++ sq :: trailing))
      by (repeat (rewrite <- ?app_assoc; cbn [app]); reflexivity).
    rewrite includes_occurrence. reflexivity.
  - replace (indent_of line ++ lit "gem " ++ dq :: name ++ dq :: lit ", "
               ++ dq :: lit "~> " ++ version ++ dq :: trailing)
      with ((indent_of line ++ lit "gem " ++ dq :: name ++ dq :: lit ", "
               ++ dq :: lit "~> " ++ version ++ [dq]) ++ trailing)
      by (repeat (rewrite <- ?app_assoc; cbn [app]); reflexivity).
    rewrite includes_skip.
    + destruct (includes trailing (sq :: name ++ [sq])) eqn:Ht; [|reflexivity].
      rewrite Hinf, (includes_infix _ _ a b Ht) in Hinc. discriminate.
    + assert (Hi : forallb (fun x : N => negb (sq =? x)) (indent_of line) = true)
        by (apply forallb_imp with (p := is_space);
            [exact space_is_not_sq | apply indent_of_blank]).
      assert (Hq : forall s, forallb not_quote s = true ->
                             forallb (fun x : N => negb (sq =? x)) s = true)
        by (intros s; apply forallb_imp; exact not_quote_is_not_sq).
      repeat (rewrite forallb_app; cbn [forallb]).
      repeat (apply andb_true_iff; split); try reflexivity;
        [exact Hi | exact (Hq name Hn) | exact (Hq version Hv)].
Qed.

Lemma canon_quotes_app (a b : jsstring) :
  canon_quotes (a ++ b) = canon_quotes a ++ canon_quotes b.
Proof. apply map_app. Qed.

Lemma canon_quotes_quote (q : char) (s : jsstring) :
  is_quote q = true -> canon_quotes (q :: s) = dq :: canon_quotes s.
Proof. intros Hq. unfold canon_quotes. cbn [map]. rewrite Hq. reflexivity. Qed.

(** C7 (as amended).  Rebuilding is the identity, up to the quote style,
    on the lines that are in the layout of the rebuilder for the target
    version: the indentation, the keyword and one space, the name between
    quotes, a comma and a space, the operator, a space and the version
    between quotes, and a trailing text without line terminator and without
    trailing white space. *)
Theorem buildGemLine_idempotent :
  forall (line name version : jsstring),
    rebuilt_layout name version line ->
    canon_quotes (buildGemLine line name version) = canon_quotes line.
Proof.
  intros line name version Hlay. destruct Hlay.
  rewrite (@buildGemLine_pinned indent [32] name [] [32]
             (lit "~> " ++ version) rest [] version q1 q2 q3 q4);
    try assumption; try reflexivity; try discriminate.
  - rewrite (@remaining_trimmed rest) by assumption.
    match goal with
    | |- context [detect_quote ?l name] =>
        pose proof (detect_quote_is_quote l name) as Hq;
        generalize dependent (detect_quote l name); intros q Hq
    end.
    repeat (rewrite ?canon_quotes_app;
            rewrite ?canon_quotes_quote by assumption).
    reflexivity.
  - repeat (rewrite <- ?app_assoc; cbn [app]). rewrite app_nil_r. reflexivity.
Qed.

Lemma buildGemLine_idempotent_witness :
  canon_quotes
    (buildGemLine (src "  gem `foo`, '~> 1.0', require: false  # pinned")
       (lit "foo") (lit "1.0"))
  = canon_quotes (src "  gem `foo`, '~> 1.0', require: false  # pinned").
Proof.
  apply (@buildGemLine_idempotent
           (src "  gem `foo`, '~> 1.0', require: false  # pinned")
           (lit "foo") (lit "1.0")).
  exact (@RebuiltLayout (lit "foo") (lit "1.0") (lit "  ")
           (lit ", require: false  # pinned") dq dq sq sq
           eq_refl eq_refl eq_refl eq_refl eq_refl eq_refl eq_refl eq_refl
           eq_refl).
Defined.

(** C7 fails as stated: a line whose constraint is the target version,
    written without the operator, is not returned as it is, also up to the
    quote style. *)
Lemma buildGemLine_rewrites_current_line :
  currentVersion (parseGemLine (src "gem `foo`, `1.0`")) = Some (lit "1.0")
  /\ buildGemLine (src "gem `foo`, `1.0`") (lit "foo") (lit "1.0")
     = src "gem `foo`, `~> 1.0`"
  /\ canon_quotes (buildGemLine (src "gem `foo`, `1.0`") (lit "foo") (lit "1.0"))
     <> canon_quotes (src "gem `foo`, `1.0`").
Proof.
  split; [reflexivity|]. split; [reflexivity|].
  vm_compute. discriminate.
Qed.

(* ===================================================================== *)
(** ** Versions of the registry *)
(* ===================================================================== *)

Lemma is_digit_cases (c : char) :
  is_digit c = true ->
  In c [48; 49; 50; 51; 52; 53; 54; 55; 56; 57].
Proof.
  unfold is_digit, char_in. intros H.
  apply andb_true_iff in H as [H1 H2].
  apply N.leb_le in H1. apply N.leb_le in H2.
  cbn [In]. lia.
Qed.

Lemma digit_props (c : char) :
  is_digit c = true ->
  is_space c = false /\ (c =? 45) = false /\ (c =? 43) = false
  /\ (c =? 120) = false /\ (c =? 88) = false /\ (c =? 46) = false
  /\ exists v, digit_val 10 c = Some v.
Proof.
  intros H. apply is_digit_cases in H. cbn [In] in H.
  repeat (destruct H as [<-|H];
          [repeat split; try reflexivity; eexists; reflexivity|]).
  contradiction.
Qed.

Lemma read_digits_some (R : Z) (s : jsstring) :
  forall a, read_digits R (Some a) s <> None.
Proof.
  induction s as [|c s IH]; intros a; cbn [read_digits]; [discriminate|].
  destruct (digit_val R c); [apply IH | discriminate].
Qed.

Lemma to_double_not_NaN (m : Z) : to_double m <> NaN.
Proof.
  unfold to_double. destruct (m <? 2 ^ 53)%Z; [discriminate|].
  match goal with |- (if ?b then _ else _) <> _ => destruct b end;
    discriminate.
Qed.

(** A decimal numeral parses to a number. *)
Lemma parseInt_numeral (d : char) (s : jsstring) :
  forallb is_digit (d :: s) = true -> parseInt (d :: s) <> NaN.
Proof.
  intros H. cbn [forallb] in H. apply andb_true_iff in H as [Hd Hs].
  destruct (digit_props d Hd) as (Hsp & H45 & H43 & _ & _ & _ & v & Hv).
  assert (Hhex : match d :: s with
                 | z :: x :: _ => (z =? 48) && ((x =? 120) || (x =? 88))
                 | _ => false
                 end = false).
  { destruct s as [|x t]; [reflexivity|].
    cbn [forallb] in Hs. apply andb_true_iff in Hs as [Hx _].
    destruct (digit_props x Hx) as (_ & _ & _ & H120 & H88 & _).
    rewrite H120, H88. apply andb_false_r. }
  unfold parseInt, trimStart. cbn [dropWhile]. rewrite Hsp, H45, H43.
  cbn [orb]. cbv zeta. rewrite Hhex.
  cbn [read_digits]. rewrite Hv.
  destruct (read_digits 10 (Some v) s) as [m|] eqn:Hr.
  - apply to_double_not_NaN.
  - exfalso. exact (@read_digits_some 10 s v Hr).
Qed.

Lemma split_head (ds rest : jsstring) :
  forallb (fun c => negb (c =? 46)) ds = true ->
  stops (fun c => negb (c =? 46)) rest ->
  nth 0 (split 46 (ds ++ rest)) [] = ds.
Proof.
  intros Hds Hrest. induction ds as [|x ds IH]; cbn [app].
  - destruct rest as [|c t]; [reflexivity|].
    cbn in Hrest. apply negb_false_iff in Hrest.
    cbn [split]. rewrite Hrest. reflexivity.
  - cbn [forallb] in Hds. apply andb_true_iff in Hds as [Hx Hds].
    apply negb_true_iff in Hx. cbn [split]. rewrite Hx.
    specialize (IH Hds).
    pose proof (split_not_nil 46 (ds ++ rest)) as Hne.
    destruct (split 46 (ds ++ rest)) as [|h r]; [contradiction|].
    cbn [nth] in *. rewrite IH. reflexivity.
Qed.

(** X5.  The leading component of a version that starts with a decimal
    numeral, ended by a dot or by the end of the string, is a number: the
    comparison of major lines never meets NaN on such versions. *)
Lemma major_of_numeric (ds rest : jsstring) :
  ds <> [] ->
  forallb is_digit ds = true ->
  stops (fun c => negb (c =? 46)) rest ->
  major_of (ds ++ rest) <> NaN.
Proof.
  intros Hne Hds Hrest. unfold major_of.
  rewrite split_head; [|apply forallb_imp with (p := is_digit);
                        [intros c Hc; destruct (digit_props c Hc) as
                           (_ & _ & _ & _ & _ & H46 & _);
                         rewrite H46; reflexivity
                        | exact Hds]
                      | exact Hrest].
  destruct ds as [|d s]; [contradiction|].
  apply parseInt_numeral. exact Hds.
Qed.

(* ===================================================================== *)
(** ** The text written by [update] *)
(* ===================================================================== *)

Lemma forallb_infix (p : char -> bool) (a x b : jsstring) :
  forallb p (a ++ x ++ b) = true -> forallb p x = true.
Proof.
  rewrite !forallb_app. intros H.
  apply andb_true_iff in H as [_ H]. apply andb_true_iff in H as [H _].
  exact H.
Qed.

Lemma match_gem_at_infix (t name : jsstring) :
  match_gem_at t = Some name -> exists a b, t = a ++ name ++ b.
Proof.
  unfold match_gem_at.
  destruct (stripPrefix t (lit "gem")) as [r|] eqn:H1; [|discriminate].
  pose proof (span_spec is_space r) as [Hr _].
  destruct (span is_space r) as [ws r1]. cbn [fst snd] in Hr.
  destruct ws as [|w ws]; [discriminate|].
  destruct r1 as [|q r2]; [discriminate|].
  destruct (is_quote q); [|discriminate].
  pose proof (span_spec not_quote r2) as [Hr2 _].
  destruct (span not_quote r2) as [n r3]. cbn [fst snd] in Hr2.
  destruct n as [|x n]; [discriminate|].
  destruct r3 as [|q' r4]; [discriminate|].
  destruct (is_quote q'); [|discriminate].
  intros H; injection H as <-.
  apply stripPrefix_some in H1.
  exists (lit "gem" ++ (w :: ws) ++ [q]), (q' :: r4).
  rewrite H1, Hr, Hr2.
  repeat (rewrite <- ?app_assoc; cbn [app]). reflexivity.
Qed.

Lemma dot_group_spec (s : jsstring) :
  s = fst (dot_group s) ++ snd (dot_group s).
Proof.
  unfold dot_group. destruct s as [|c t]; [reflexivity|].
  destruct (c =? 46); [|reflexivity].
  pose proof (span_spec is_digit t) as [Ht _].
  destruct (span is_digit t) as [d t']. cbn [fst snd] in Ht.
  destruct d as [|x d]; [reflexivity|].
  cbn [fst snd app]. rewrite Ht. reflexivity.
Qed.

Lemma match_version_at_infix (t v : jsstring) :
  match_version_at t = Some v -> exists a b, t = a ++ v ++ b.
Proof.
  unfold match_version_at.
  destruct t as [|q1 [|comma r]]; try discriminate.
  destruct (is_quote q1 && (comma =? 44)); [|discriminate].
  pose proof (span_spec is_space r) as [Hr _].
  destruct (span is_space r) as [ws r1]. cbn [fst snd] in Hr.
  destruct r1 as [|q2 r2]; [discriminate|].
  destruct (is_quote q2); [|discriminate].
  pose proof (span_spec is_op r2) as [Hr2 _].
  destruct (span is_op r2) as [ops r3]. cbn [fst snd] in Hr2.
  pose proof (span_spec is_space r3) as [Hr3 _].
  destruct (span is_space r3) as [ws' r4]. cbn [fst snd] in Hr3.
  pose proof (span_spec is_digit r4) as [Hr4 _].
  destruct (span is_digit r4) as [d1 r5]. cbn [fst snd] in Hr4.
  destruct d1 as [|x d1]; [discriminate|].
  destruct r5 as [|dot r6]; [discriminate|].
  destruct (dot =? 46); [|discriminate].
  pose proof (span_spec is_digit r6) as [Hr6 _].
  destruct (span is_digit r6) as [d2 r7]. cbn [fst snd] in Hr6.
  destruct d2 as [|y d2]; [discriminate|].
  pose proof (dot_group_spec r7) as Hr7.
  destruct (dot_group r7) as [g1 r8]. cbn [fst snd] in Hr7.
  pose proof (dot_group_spec r8) as Hr8.
  destruct (dot_group r8) as [g2 r9]. cbn [fst snd] in Hr8.
  destruct r9 as [|q3 r10]; [discriminate|].
  destruct (is_quote q3); [|discriminate].
  intros H; injection H as <-.
  exists (q1 :: comma :: ws ++ q2 :: ops ++ ws'), (q3 :: r10).
  rewrite Hr, Hr2, Hr3, Hr4, Hr6, Hr7, Hr8.
  repeat (rewrite <- ?app_assoc; cbn [app]). reflexivity.
Qed.

Lemma search_infix (m : jsstring -> option jsstring) (line x : jsstring) :
  (forall t y, m t = Some y -> exists a b, t = a ++ y ++ b) ->
  search m line = Some x -> exists a b, line = a ++ x ++ b.
Proof.
  intros Hm Hs.
  destruct (search_some _ _ Hs) as (a & t & -> & Ht).
  destruct (Hm _ _ Ht) as (a' & b & ->).
  exists (a ++ a'), b. rewrite <- app_assoc. reflexivity.
Qed.

(** The name and the version found by [parseGemLine] are parts of the
    line. *)
Lemma parseGemLine_infix (line : jsstring) :
  (forall name, gemName (parseGemLine line) = Some name ->
                exists a b, line = a ++ name ++ b)
  /\ (forall v, currentVersion (parseGemLine line) = Some v ->
                exists a b, line = a ++ v ++ b).
Proof.
  unfold parseGemLine.
  destruct (search match_gem_at line) as [n|] eqn:Hn;
    cbn [gemName currentVersion]; split; intros x Hx; try discriminate.
  - injection Hx as <-. exact (search_infix _ _ match_gem_at_infix Hn).
  - exact (search_infix _ _ match_version_at_infix Hx).
Qed.

(** The target is the latest version or the current one. *)
Lemma determineTargetVersion_cases
    (today : Z) (current : option jsstring) (latestVersion : jsstring)
    (date : Z) :
  determineTargetVersion today current latestVersion date = latestVersion
  \/ current = Some (determineTargetVersion today current latestVersion date).
Proof.
  unfold determineTargetVersion.
  destruct current as [[|c cur]|]; try (left; reflexivity).
  destruct (strict_eq _ _); [left; reflexivity|].
  destruct (_ <=? _)%Z; [left | right]; reflexivity.
Qed.

Lemma line_terminator_free_no_line_feed (s : jsstring) :
  forallb not_line_terminator s = true -> no_line_feed s = true.
Proof.
  apply forallb_imp. intros c Hc.
  destruct (N.eqb_spec c 10) as [->|]; [discriminate|reflexivity].
Qed.

Lemma buildGemLine_no_line_feed (line name version : jsstring) :
  no_line_feed line = true ->
  no_line_feed name = true ->
  no_line_feed version = true ->
  no_line_feed (buildGemLine line name version) = true.
Proof.
  intros Hl Hn Hv. rewrite buildGemLine_eq.
  assert (Hi : no_line_feed (indent_of line) = true).
  { pose proof (span_spec is_space line) as [Hs _].
    unfold no_line_feed in Hl. rewrite Hs, forallb_app in Hl.
    apply andb_true_iff in Hl as [Hl _]. exact Hl. }
  assert (Hq : negb (detect_quote line name =? 10) = true)
    by (unfold detect_quote; destruct (includes _ _); reflexivity).
  assert (Ht : no_line_feed
                 (remaining (strip_constraint (afterGem_of line name))) = true)
    by (apply line_terminator_free_no_line_feed, rebuilt_trailing_spec).
  unfold no_line_feed in *.
  repeat (rewrite forallb_app; cbn [forallb]).
  repeat (apply andb_true_iff; split); try reflexivity; assumption.
Qed.

Lemma split_no_line_feed (s : jsstring) :
  Forall (fun l => no_line_feed l = true) (split 10 s).
Proof.
  induction s as [|c t IH]; cbn [split].
  - repeat constructor.
  - destruct (c =? 10) eqn:Hc; [constructor; [reflexivity | exact IH]|].
    destruct (split 10 t) as [|h r]; [repeat constructor|].
    + unfold no_line_feed. cbn [forallb]. rewrite Hc. reflexivity.
    + inversion IH as [|? ? Hh Hr]; subst. constructor; [|exact Hr].
      unfold no_line_feed in *. cbn [forallb]. rewrite Hc, Hh. reflexivity.
Qed.

Lemma split_one_line (x : jsstring) :
  no_line_feed x = true -> split 10 x = [x].
Proof.
  unfold no_line_feed. induction x as [|c t IH]; [reflexivity|].
  cbn [forallb split]. intros H. apply andb_true_iff in H as [Hc H].
  apply negb_true_iff in Hc. rewrite Hc, (IH H). reflexivity.
Qed.

Lemma split_app_line (x s : jsstring) :
  no_line_feed x = true -> split 10 (x ++ 10 :: s) = x :: split 10 s.
Proof.
  unfold no_line_feed. induction x as [|c t IH]; [reflexivity|].
  cbn [forallb app split]. intros H. apply andb_true_iff in H as [Hc H].
  apply negb_true_iff in Hc. rewrite Hc, (IH H). reflexivity.
Qed.

(** Lines without line feeds, joined and split again, are the same
    lines. *)
Lemma split_join (ls : list jsstring) :
  ls <> [] ->
  Forall (fun l => no_line_feed l = true) ls ->
  split 10 (join 10 ls) = ls.
Proof.
  induction ls as [|x ls IH]; [contradiction|].
  intros _ Hall. inversion Hall as [|? ? Hx Hls]; subst.
  destruct ls as [|y ls].
  - apply split_one_line, Hx.
  - change (join 10 (x :: y :: ls)) with (x ++ 10 :: join 10 (y :: ls)).
    rewrite (split_app_line _ _ Hx), IH; [reflexivity | discriminate | exact Hls].
Qed.

(** The version resolved is the number of a stable record served. *)
Lemma latestVersionInfo_latest_stable (versions : list Version)
    (info : LatestInfo) :
  latestVersionInfo versions = Some info ->
  exists v, In v versions /\ prerelease v = false /\ latest info = number v.
Proof.
  intros H.
  destruct (@latestVersionInfo_inv _ _ H) as (v & rest & oldest & Hst & _ & ->).
  exists v.
  assert (Hin : In v (stableVersions versions)) by (rewrite Hst; left; reflexivity).
  unfold stableVersions in Hin. apply filter_In in Hin as [Hin Hp].
  apply negb_true_iff in Hp. auto.
Qed.

Section UpdateText.

Variable World : Type.
Variable request : jsstring -> World -> Response * World.
Variable clock : World -> Z.

(** The numbers of the stable versions served are of one line. *)
Hypothesis served_numbers_one_line :
  forall name w versions v,
    fst (request name w) = Body versions ->
    In v versions -> prerelease v = false ->
    no_line_feed (number v) = true.

Lemma updateLine_no_line_feed (line out : jsstring) (w w' : World) :
  updateLine request clock line w = Done out w' ->
  no_line_feed line = true ->
  no_line_feed out = true.
Proof.
  unfold updateLine, fetchLatestVersionInfo. intros H Hl.
  destruct (is_gem_line line); [|injection H as <- _; exact Hl].
  destruct (gemName (parseGemLine line)) as [[|c n]|] eqn:Hn;
    try (injection H as <- _; exact Hl).
  destruct (hasAltSource (parseGemLine line)); [injection H as <- _; exact Hl|].
  destruct (has_unescaped_characters _); [discriminate|].
  destruct (request (c :: n) w) as [r w1] eqn:Hreq.
  destruct (resolveLatestInfo r) as [info|] eqn:Hinfo;
    injection H as <- _; [|exact Hl].
  apply buildGemLine_no_line_feed; [exact Hl| |].
  - destruct (proj1 (parseGemLine_infix line) _ Hn) as (a & b & Hline).
    unfold no_line_feed in *. rewrite Hline in Hl.
    exact (forallb_infix _ _ _ _ Hl).
  - destruct (determineTargetVersion_cases (clock w1)
                (currentVersion (parseGemLine line))
                (latest info) (majorReleaseDate info)) as [->|Hcur].
    + destruct r as [|versions]; [discriminate|]. cbn [resolveLatestInfo] in Hinfo.
      destruct (latestVersionInfo_latest_stable _ Hinfo) as (v & Hin & Hp & ->).
      assert (Hserved : fst (request (c :: n) w) = Body versions)
        by (rewrite Hreq; reflexivity).
      exact (@served_numbers_one_line _ _ _ _ Hserved Hin Hp).
    + destruct (proj2 (parseGemLine_infix line) _ Hcur) as (a & b & Hline).
      unfold no_line_feed in *. rewrite Hline in Hl.
      exact (forallb_infix _ _ _ _ Hl).
Qed.

Lemma updateLines_no_line_feed (lines : list jsstring) :
  forall w outs wf,
    updateLines request clock lines w = Done outs wf ->
    Forall (fun l => no_line_feed l = true) lines ->
    Forall (fun l => no_line_feed l = true) outs.
Proof.
  induction lines as [|l lines IH]; intros w outs wf H Hall.
  - injection H as <- _. constructor.
  - destruct (@updateLines_cons_inv _ _ _ _ _ _ _ _ H)
      as (out & w1 & os & Hl & Hr & ->).
    inversion Hall as [|? ? Hnl Hls]; subst. constructor.
    + exact (@updateLine_no_line_feed _ _ _ _ Hl Hnl).
    + exact (IH _ _ _ Hr Hls).
Qed.

(** The text written splits into the lines pushed. *)
Lemma update_text_split (gemfileContent text : jsstring) (w w' : World) :
  update request clock gemfileContent w = Done text w' ->
  exists outs,
    updateLines request clock (split 10 gemfileContent) w = Done outs w'
    /\ text = join 10 outs
    /\ split 10 text = outs.
Proof.
  unfold update.
  destruct (updateLines request clock (split 10 gemfileContent) w)
    as [outs w1|w1] eqn:Hrun; [|discriminate].
  intros H. injection H as <- <-. exists outs.
  split; [reflexivity|]. split; [reflexivity|].
  apply split_join.
  - intros ->. pose proof (@updateLines_length _ _ _ _ _ _ _ Hrun) as Hlen.
    pose proof (split_not_nil 10 gemfileContent) as Hne.
    destruct (split 10 gemfileContent); [contradiction|discriminate].
  - exact (@updateLines_no_line_feed _ _ _ _ Hrun (split_no_line_feed gemfileContent)).
Qed.

End UpdateText.

(** C8 fails as stated: when the registry serves a version number that
    holds a line feed, the text written from a manifest of one line has two
    lines. *)
Lemma update_text_gains_line :
  List.length (split 10 (src "gem `foo`")) = 1%nat
  /\ update registry_line_feed (fun _ => 0%Z) (src "gem `foo`") []
     = Done (src "gem `foo`, `~> 1.0" ++ [10] ++ src "2`") [lit "foo"]
  /\ List.length
       (split 10 (src "gem `foo`, `~> 1.0" ++ [10] ++ src "2`")) = 2%nat.
Proof. vm_compute. repeat split. Qed.

(** C8 (as amended).  When the run completes (no request throws), the
    text written is the lines pushed, joined by line feeds; they are as many
    as the lines read, and the line at each position is the line read at
    that position or that line rebuilt.  When the numbers of the stable
    versions served hold no line feed, the text written splits into
    exactly these lines: it has as many lines as the text read. *)
Theorem update_preserves_line_positions :
  forall (World : Type) (request : jsstring -> World -> Response * World)
         (clock : World -> Z) (gemfileContent text : jsstring) (w w' : World),
    update request clock gemfileContent w = Done text w' ->
    exists outs,
      updateLines request clock (split 10 gemfileContent) w = Done outs w'
      /\ text = join 10 outs
      /\ List.length outs = List.length (split 10 gemfileContent)
      /\ Forall2
           (fun line out =>
              out = line
              \/ exists name version,
                   gemName (parseGemLine line) = Some name
                   /\ out = buildGemLine line name version)
           (split 10 gemfileContent) outs
      /\ ((forall name w0 versions v,
             fst (request name w0) = Body versions ->
             In v versions -> prerelease v = false ->
             no_line_feed (number v) = true) ->
          split 10 text = outs
          /\ List.length (split 10 text)
             = List.length (split 10 gemfileContent)).
Proof.
  intros World request clock content text w w' Hdone.
  assert (Hrun : exists outs,
             updateLines request clock (split 10 content) w = Done outs w'
             /\ text = join 10 outs).
  { unfold update in Hdone.
    destruct (updateLines request clock (split 10 content) w)
      as [outs w1|w1]; [|discriminate].
    injection Hdone as <- <-. exists outs. auto. }
  destruct Hrun as (outs & Hrun & Htext).
  pose proof (@updateLines_length _ _ _ _ _ _ _ Hrun) as Hlen.
  exists outs. repeat split; try assumption.
  - exact (@updateLines_positions _ _ _ _ _ _ _ Hrun).
  - destruct (@update_text_split _ request clock H _ _ _ _ Hdone)
      as (outs' & Hrun' & _ & Hsplit).
    rewrite Hrun in Hrun'. injection Hrun' as <-. exact Hsplit.
  - destruct (@update_text_split _ request clock H _ _ _ _ Hdone)
      as (outs' & Hrun' & _ & Hsplit).
    rewrite Hrun in Hrun'. injection Hrun' as <-. rewrite Hsplit. exact Hlen.
Qed.


(* ===================================================================== *)
(** ** The parser and the resolver on sample lines *)
(* ===================================================================== *)

Lemma match_version_at_nonempty (t v : jsstring) :
  match_version_at t = Some v -> v <> [].
Proof.
  unfold match_version_at.
  destruct t as [|q1 [|comma r]]; try discriminate.
  destruct (is_quote q1 && (comma =? 44)); [|discriminate].
  destruct (span is_space r) as [ws r1].
  destruct r1 as [|q2 r2]; [discriminate|].
  destruct (is_quote q2); [|discriminate].
  destruct (span is_op r2) as [ops r3].
  destruct (span is_space r3) as [ws' r4].
  destruct (span is_digit r4) as [d1 r5].
  destruct d1 as [|x d1]; [discriminate|].
  destruct r5 as [|dot r6]; [discriminate|].
  destruct (dot =? 46); [|discriminate].
  destruct (span is_digit r6) as [d2 r7].
  destruct d2 as [|y d2]; [discriminate|].
  destruct (dot_group r7) as [g1 r8].
  destruct (dot_group r8) as [g2 r9].
  destruct r9 as [|q3 r10]; [discriminate|].
  destruct (is_quote q3); [|discriminate].
  intros H; injection H as <-. discriminate.
Qed.

(** A pinned constraint is never the empty string: the resolver takes the
    pinned branch for every version the parser extracts. *)
Lemma parseGemLine_version_nonempty (line v : jsstring) :
  currentVersion (parseGemLine line) = Some v -> v <> [].
Proof.
  unfold parseGemLine.
  destruct (search match_gem_at line); cbn [currentVersion]; [|discriminate].
  intros Hs.
  destruct (search_some _ _ Hs) as (a & t & _ & Ht).
  exact (match_version_at_nonempty _ Ht).
Qed.

(** A declaration behind a comment marker is not processed. *)
Example comment_line_is_not_a_declaration :
  is_gem_line (src "# gem `foo`, `1.0`") = false
  /\ is_gem_line (src "  gem `foo`, `1.0` # pinned") = true.
Proof. split; reflexivity. Qed.

Example parseGemLine_samples :
  parseGemLine (src "  gem `foo`, `~> 1.0`, require: false")
    = mkGemLine (Some (lit "foo")) (Some (lit "1.0")) false
  /\ parseGemLine (src "gem 'rails', '>= 7.0.8.1', github: 'rails/rails'")
    = mkGemLine (Some (lit "rails")) (Some (lit "7.0.8.1")) true
  /\ parseGemLine (src "gem 'puma'")
    = mkGemLine (Some (lit "puma")) None false
  /\ parseGemLine (src "gem 'puma', '>= 5', '< 7'")
    = mkGemLine (Some (lit "puma")) None false
  /\ parseGemLine (src "gem 'legit', mygit: 'x'")
    = mkGemLine (Some (lit "legit")) None false
  /\ parseGemLine (src "gem puma")
    = mkGemLine None None false.
Proof. repeat split; reflexivity. Qed.

Example parseInt_samples :
  parseInt (lit "12") = Fin 12
  /\ parseInt (lit " -7rc") = Fin (-7)
  /\ parseInt (lit "0x1f") = Fin 31
  /\ parseInt (lit "0x") = NaN
  /\ parseInt (lit "v1") = NaN
  /\ parseInt (lit "") = NaN
  /\ parseInt (lit "9007199254740993") = Fin 9007199254740992.
Proof. repeat split; reflexivity. Qed.

(** The gate on a new major line: ten days after 3.0.0 a line pinned to
    2.3.0 stays, two hundred days after it moves; within the major line it
    always moves. *)
Example determineTargetVersion_samples :
  determineTargetVersion (10 * MS_PER_DAY) (Some (lit "2.3.0")) (lit "3.0.0") 0
    = lit "2.3.0"
  /\ determineTargetVersion (200 * MS_PER_DAY) (Some (lit "2.3.0")) (lit "3.1.4") 0
    = lit "3.1.4"
  /\ determineTargetVersion (180 * MS_PER_DAY - 1) (Some (lit "2.3.0")) (lit "3.0.0") 0
    = lit "2.3.0"
  /\ determineTargetVersion (180 * MS_PER_DAY) (Some (lit "2.3.0")) (lit "3.0.0") 0
    = lit "3.0.0"
  /\ determineTargetVersion 0 (Some (lit "2.3.0")) (lit "2.9.1") 0
    = lit "2.9.1"
  /\ determineTargetVersion 0 None (lit "2.9.1") 0
    = lit "2.9.1".
Proof. repeat split; reflexivity. Qed.

(** A history whose latest version has no numeric leading component is
    skipped: the major line is empty and the handler resolves [null]. *)
Example latestVersionInfo_without_number :
  latestVersionInfo [mkVersion (lit "v1.0") false 0] = None.
Proof. reflexivity. Qed.

Example buildGemLine_samples :
  buildGemLine (src "gem 'puma'") (lit "puma") (lit "6.4.2")
    = src "gem 'puma', '~> 6.4.2'"
  /\ buildGemLine (src "  gem `foo` # keep") (lit "foo") (lit "2.0")
    = src "  gem `foo`, `~> 2.0`# keep"
  /\ buildGemLine (src "gem 'puma', '>= 5', '< 7'") (lit "puma") (lit "6.4.2")
    = src "gem 'puma', '~> 6.4.2', '< 7'".
Proof. repeat split; reflexivity. Qed.

(* ===================================================================== *)
(** ** The guard of the loop *)
(* ===================================================================== *)

Lemma startsWith_decomp (p : jsstring) :
  forall s, startsWith s p = true -> exists r, s = p ++ r.
Proof.
  induction p as [|c p IH]; intros s H.
  - exists s. reflexivity.
  - destruct s as [|x s]; [discriminate|].
    cbn [startsWith] in H. apply andb_true_iff in H as [Hc H].
    apply N.eqb_eq in Hc. subst x.
    destruct (IH _ H) as [r ->]. exists r. reflexivity.
Qed.

Lemma indexOf_from_here (i : Z) (s p : jsstring) :
  startsWith s p = true -> indexOf_from i s p = i.
Proof. intros H. destruct s; cbn [indexOf_from]; rewrite H; reflexivity. Qed.

Lemma indexOf_from_bound (p s : jsstring) :
  forall i, indexOf_from i s p = (-1)%Z \/ (i <= indexOf_from i s p)%Z.
Proof.
  induction s as [|c s IH]; intros i; cbn [indexOf_from].
  - destruct (startsWith [] p); [right; lia | left; reflexivity].
  - destruct (startsWith (c :: s) p); [right; lia|].
    destruct (IH (i + 1)%Z) as [H|H]; [left; exact H | right; lia].
Qed.

Lemma indexOf_from_absent (p s : jsstring) :
  forall i, (0 <= i)%Z -> indexOf_from i s p = (-1)%Z -> includes s p = false.
Proof.
  induction s as [|c s IH]; intros i Hi; cbn [indexOf_from];
    rewrite includes_unfold.
  - destruct (startsWith [] p); [lia | reflexivity].
  - destruct (startsWith (c :: s) p); [lia|].
    intros H. cbn [orb]. apply (IH (i + 1)%Z); [lia | exact H].
Qed.

Lemma indexOf_from_skip (c0 : char) (p a s : jsstring) :
  forallb (fun x => negb (c0 =? x)) a = true ->
  forall i,
    indexOf_from i (a ++ s) (c0 :: p)
    = indexOf_from (i + Z.of_nat (List.length a)) s (c0 :: p).
Proof.
  induction a as [|x a IH]; intros Ha i.
  - cbn [app List.length]. f_equal. cbn. lia.
  - cbn [forallb] in Ha. apply andb_true_iff in Ha as [Hx Ha].
    apply negb_true_iff in Hx.
    cbn [app indexOf_from startsWith]. rewrite Hx. cbn [andb].
    rewrite (IH Ha). f_equal. cbn [List.length]. lia.
Qed.

(** A line is its leading white space, its trimmed text and its trailing
    white space. *)
Lemma trim_decomp (line : jsstring) :
  exists ws ws', line = ws ++ trim line ++ ws'
                 /\ blank ws = true /\ blank ws' = true.
Proof.
  destruct (dropWhile_spec is_space line) as (ws & Hl & Hws).
  destruct (trimEnd_prefix (trimStart line)) as (ws' & Ht & Hws').
  exists ws, ws'. repeat split; [|exact Hws | exact Hws'].
  unfold trim. rewrite <- Ht. exact Hl.
Qed.

(** X1.  The comment test of the guard never fires: a line passes the
    guard exactly when its trimmed text starts with the keyword and a space.
    When it does, the first [gem] of the line stands right after the leading
    white space, and a [#] cannot stand before it. *)
Theorem is_gem_line_startsWith :
  forall line : jsstring,
    is_gem_line line = startsWith (trim line) (lit "gem ").
Proof.
  intros line. unfold is_gem_line.
  destruct (startsWith (trim line) (lit "gem ")) eqn:Hs; [|reflexivity].
  cbn [andb]. apply negb_true_iff.
  destruct (trim_decomp line) as (ws & ws' & Hline & Hws & _).
  destruct (startsWith_decomp _ _ Hs) as [r Hr].
  assert (Hgem : indexOf line (lit "gem") = Z.of_nat (List.length ws)).
  { unfold indexOf. rewrite Hline.
    change (lit "gem") with (103 :: [101; 109]).
    rewrite indexOf_from_skip
      by (apply forallb_imp with (p := is_space);
          [intros c Hc; rewrite (space_not_g _ Hc); reflexivity | exact Hws]).
    apply indexOf_from_here. rewrite Hr. reflexivity. }
  assert (Hhash : indexOf line (lit "#") = (-1)%Z
                  \/ (Z.of_nat (List.length ws) <= indexOf line (lit "#"))%Z).
  { unfold indexOf. rewrite Hline.
    change (lit "#") with (35 :: []).
    rewrite indexOf_from_skip
      by (apply forallb_imp with (p := is_space);
          [intros c Hc; destruct (N.eqb_spec 35 c) as [<-|];
             [discriminate | reflexivity]
          | exact Hws]).
    apply indexOf_from_bound. }
  rewrite Hgem. destruct Hhash as [Hno|Hge].
  - unfold indexOf in Hno.
    rewrite (@indexOf_from_absent (lit "#") line 0%Z ltac:(lia) Hno). reflexivity.
  - apply andb_false_iff. right. apply Z.ltb_ge. exact Hge.
Qed.

(* ===================================================================== *)
(** ** The products of the parser *)
(* ===================================================================== *)

Lemma last_elt_cons_eq (c : char) (pre : jsstring) :
  last_elt (c :: pre)
  = match last_elt pre with
    | Some x => Some x
    | None => Some c
    end.
Proof.
  destruct pre as [|y r]; [reflexivity|].
  change (last_elt (c :: y :: r)) with (last_elt (y :: r)).
  destruct (last_elt_cons r y) as [o ->]. reflexivity.
Qed.

Lemma alt_marker_head (m : jsstring) :
  In m alt_markers -> exists c t, m = c :: t /\ is_word c = true.
Proof.
  intros H. cbn [alt_markers In] in H.
  repeat (destruct H as [<-|H]; [eexists; eexists; split; reflexivity|]).
  contradiction.
Qed.

(** The test of the alternate sources, from any position: a marker stands
    somewhere, and the unit before it, if any, is not a word character. *)
Lemma test_altSource_iff (s : jsstring) :
  forall prev,
    test_altSource prev s = true
    <-> exists pre marker post,
          s = pre ++ marker ++ post
          /\ In marker alt_markers
          /\ is_word_opt (match last_elt pre with
                          | Some c => Some c
                          | None => prev
                          end) = false.
Proof.
  induction s as [|c s IH]; intros prev.
  - split.
    + cbn [test_altSource]. rewrite orb_false_r. intros H.
      apply andb_true_iff in H as [_ H]. vm_compute in H. discriminate H.
    + intros (pre & m & post & Hs & Hm & _).
      destruct (alt_marker_head Hm) as (x & t & -> & _).
      destruct pre; discriminate.
  - split.
    + cbn [test_altSource]. intros H. apply orb_true_iff in H as [H|H].
      * apply andb_true_iff in H as [Hb He].
        apply existsb_exists in He as (m & Hm & Hst).
        destruct (startsWith_decomp _ _ Hst) as [post Hpost].
        exists [], m, post. repeat split; [exact Hpost | exact Hm|].
        destruct (alt_marker_head Hm) as (x & t & -> & Hx).
        injection Hpost as -> _.
        unfold word_boundary in Hb. cbn [first is_word_opt last_elt] in *.
        rewrite Hx in Hb. destruct (is_word_opt prev); [discriminate|reflexivity].
      * apply IH in H as (pre & m & post & -> & Hm & Hw).
        exists (c :: pre), m, post. repeat split; [exact Hm|].
        rewrite last_elt_cons_eq. destruct (last_elt pre); exact Hw.
    + intros (pre & m & post & Hs & Hm & Hw).
      cbn [test_altSource]. apply orb_true_iff.
      destruct pre as [|x pre].
      * left. cbn [app] in Hs. apply andb_true_iff. split.
        -- destruct (alt_marker_head Hm) as (y & t & -> & Hy).
           injection Hs as -> _. unfold word_boundary.
           cbn [first is_word_opt last_elt] in *. rewrite Hy, Hw. reflexivity.
        -- apply existsb_exists. exists m. split; [exact Hm|].
           rewrite Hs. apply startsWith_app.
      * right. injection Hs as -> ->. apply IH.
        exists pre, m, post. repeat split; [exact Hm|].
        rewrite last_elt_cons_eq in Hw. destruct (last_elt pre); exact Hw.
Qed.

(** X2.  The flag [hasAltSource] is set exactly when a name is found and
    one of the markers [git:], [github:], [path:], [source:] stands in the
    line at the start or after a unit that is not a word character. *)
Theorem hasAltSource_iff :
  forall line : jsstring,
    hasAltSource (parseGemLine line) = true
    <-> gemName (parseGemLine line) <> None
        /\ exists pre marker post,
             line = pre ++ marker ++ post
             /\ In marker alt_markers
             /\ is_word_opt (last_elt pre) = false.
Proof.
  intros line.
  assert (Ht : test_altSource None line = true
               <-> exists pre marker post,
                     line = pre ++ marker ++ post
                     /\ In marker alt_markers
                     /\ is_word_opt (last_elt pre) = false).
  { rewrite test_altSource_iff. split;
      intros (pre & m & post & H1 & H2 & H3); exists pre, m, post;
      repeat split; try assumption; destruct (last_elt pre); exact H3. }
  unfold parseGemLine.
  destruct (search match_gem_at line) as [n|];
    cbn [hasAltSource gemName].
  - rewrite Ht. split; [intros H; split; [discriminate | exact H] | intros [_ H]; exact H].
  - split; [discriminate | intros [H _]; contradiction].
Qed.

Lemma hasAltSource_iff_witness :
  hasAltSource (parseGemLine (src "gem 'rails', git: 'https://x/rails.git'"))
    = true.
Proof.
  apply (proj2 (hasAltSource_iff
                  (src "gem 'rails', git: 'https://x/rails.git'"))).
  split; [discriminate|].
  exists (src "gem 'rails', "), (lit "git:"), (src " 'https://x/rails.git'").
  repeat split. left. reflexivity.
Defined.

(** The leftmost match: the matcher fails at every position before the
    one where [search] succeeds. *)
Lemma search_first (A : Type) (m : jsstring -> option A) (s : jsstring) (x : A) :
  search m s = Some x ->
  exists a t,
    s = a ++ t /\ m t = Some x
    /\ forall a1 a2, a = a1 ++ a2 -> a2 <> [] -> m (a2 ++ t) = None.
Proof.
  induction s as [|c s IH]; cbn [search].
  - destruct (m []) eqn:Hm; [|discriminate].
    intros H; injection H as ->. exists [], []. repeat split; [exact Hm|].
    intros a1 a2 Ha Hne. destruct a1, a2; try discriminate. contradiction.
  - destruct (m (c :: s)) eqn:Hm.
    + intros H; injection H as ->. exists [], (c :: s).
      repeat split; [exact Hm|].
      intros a1 a2 Ha Hne. destruct a1, a2; try discriminate. contradiction.
    + intros H. destruct (IH H) as (a & t & -> & Ht & Hfirst).
      exists (c :: a), t. repeat split; [exact Ht|].
      intros a1 a2 Ha Hne. destruct a1 as [|y a1].
      * cbn [app] in Ha. subst a2. exact Hm.
      * injection Ha as -> ->. exact (Hfirst a1 a2 eq_refl Hne).
Qed.

Lemma match_gem_at_context (t name : jsstring) :
  match_gem_at t = Some name ->
  exists ws q1 q2 b,
    t = lit "gem" ++ ws ++ q1 :: name ++ q2 :: b
    /\ ws <> [] /\ blank ws = true
    /\ is_quote q1 = true /\ is_quote q2 = true
    /\ name <> [] /\ forallb not_quote name = true.
Proof.
  unfold match_gem_at.
  destruct (stripPrefix t (lit "gem")) as [r|] eqn:H1; [|discriminate].
  pose proof (span_spec is_space r) as [Hr Hws].
  destruct (span is_space r) as [ws r1]. cbn [fst snd] in Hr, Hws.
  destruct ws as [|w ws]; [discriminate|].
  destruct r1 as [|q r2]; [discriminate|].
  destruct (is_quote q) eqn:Hq; [|discriminate].
  pose proof (span_spec not_quote r2) as [Hr2 Hn].
  destruct (span not_quote r2) as [n r3]. cbn [fst snd] in Hr2, Hn.
  destruct n as [|x n]; [discriminate|].
  destruct r3 as [|q' r4]; [discriminate|].
  destruct (is_quote q') eqn:Hq'; [|discriminate].
  intros H; injection H as <-.
  apply stripPrefix_some in H1.
  exists (w :: ws), q, q', r4.
  repeat split; try assumption; try discriminate.
  rewrite H1, Hr, Hr2. reflexivity.
Qed.

(** The name found by the parser, in its place: after the first [gem]
    followed by white space and a quote, up to the next quote. *)
Lemma parseGemLine_name_context (line name : jsstring) :
  gemName (parseGemLine line) = Some name ->
  exists a ws q1 q2 b,
    line = a ++ lit "gem" ++ ws ++ q1 :: name ++ q2 :: b
    /\ ws <> [] /\ blank ws = true
    /\ is_quote q1 = true /\ is_quote q2 = true
    /\ name <> [] /\ forallb not_quote name = true
    /\ forall a1 a2, a = a1 ++ a2 -> a2 <> [] ->
         match_gem_at (a2 ++ lit "gem" ++ ws ++ q1 :: name ++ q2 :: b) = None.
Proof.
  unfold parseGemLine.
  destruct (search match_gem_at line) as [n|] eqn:Hs; cbn [gemName];
    [|discriminate].
  intros H; injection H as ->.
  destruct (search_first _ _ Hs) as (a & t & -> & Ht & Hfirst).
  destruct (match_gem_at_context _ Ht)
    as (ws & q1 & q2 & b & -> & H1 & H2 & H3 & H4 & H5 & H6).
  exists a, ws, q1, q2, b. repeat split; assumption.
Qed.

(** X3.  The name extracted by [parseGemLine] is never empty, holds no
    quote, and is the text between the quotes that follow a [gem] and its
    white space in the line. *)
Theorem parseGemLine_name_is_quoted_token :
  forall line name : jsstring,
    gemName (parseGemLine line) = Some name ->
    name <> []
    /\ forallb not_quote name = true
    /\ exists a ws q1 q2 b,
         line = a ++ lit "gem" ++ ws ++ q1 :: name ++ q2 :: b
         /\ ws <> [] /\ blank ws = true
         /\ is_quote q1 = true /\ is_quote q2 = true.
Proof.
  intros line name H.
  destruct (parseGemLine_name_context _ H)
    as (a & ws & q1 & q2 & b & Hl & H1 & H2 & H3 & H4 & H5 & H6 & _).
  repeat split; try assumption.
  exists a, ws, q1, q2, b. repeat split; assumption.
Qed.

Lemma parseGemLine_name_is_quoted_token_witness :
  lit "rails" <> []
  /\ forallb not_quote (lit "rails") = true
  /\ exists a ws q1 q2 b,
       src "  gem   `rails', '7.0'"
       = a ++ lit "gem" ++ ws ++ q1 :: lit "rails" ++ q2 :: b
       /\ ws <> [] /\ blank ws = true
       /\ is_quote q1 = true /\ is_quote q2 = true.
Proof.
  exact (@parseGemLine_name_is_quoted_token
           (src "  gem   `rails', '7.0'") (lit "rails") eq_refl).
Defined.

(** *** The version extracted *)

Lemma split_sep_app (sep : char) (x s : jsstring) :
  forallb (fun c => negb (c =? sep)) x = true ->
  split sep (x ++ sep :: s) = x :: split sep s.
Proof.
  induction x as [|c t IH]; cbn [forallb app split].
  - intros _. rewrite N.eqb_refl. reflexivity.
  - intros H. apply andb_true_iff in H as [Hc H].
    apply negb_true_iff in Hc. rewrite Hc, (IH H). reflexivity.
Qed.

Lemma split_sep_one (sep : char) (x : jsstring) :
  forallb (fun c => negb (c =? sep)) x = true -> split sep x = [x].
Proof.
  induction x as [|c t IH]; [reflexivity|].
  cbn [forallb split]. intros H. apply andb_true_iff in H as [Hc H].
  apply negb_true_iff in Hc. rewrite Hc, (IH H). reflexivity.
Qed.

Lemma is_numeral_digits (d : jsstring) :
  is_numeral d = true -> d <> [] /\ forallb is_digit d = true.
Proof. destruct d; [discriminate|]. intros H. split; [discriminate | exact H]. Qed.

Lemma digits_no_dot (d : jsstring) :
  forallb is_digit d = true -> forallb (fun c => negb (c =? 46)) d = true.
Proof.
  apply forallb_imp. intros c Hc.
  destruct (digit_props c Hc) as (_ & _ & _ & _ & _ & H46 & _).
  rewrite H46. reflexivity.
Qed.

Lemma dot_group_cases (s : jsstring) : dot_numeral (fst (dot_group s)).
Proof.
  unfold dot_group, dot_numeral. destruct s as [|c t]; [left; reflexivity|].
  destruct (N.eqb_spec c 46) as [->|]; [|left; reflexivity].
  pose proof (span_spec is_digit t) as [_ Hd].
  destruct (span is_digit t) as [d t']. cbn [fst] in Hd.
  destruct d as [|x d]; [left; reflexivity|].
  right. exists (x :: d). split; [reflexivity | exact Hd].
Qed.

Lemma match_version_at_spec (t v : jsstring) :
  match_version_at t = Some v ->
  exists d1 d2 g1 g2 : jsstring,
    v = d1 ++ 46 :: d2 ++ g1 ++ g2
    /\ is_numeral d1 = true /\ is_numeral d2 = true
    /\ dot_numeral g1 /\ dot_numeral g2.
Proof.
  unfold match_version_at.
  destruct t as [|q1 [|comma r]]; try discriminate.
  destruct (is_quote q1 && (comma =? 44)); [|discriminate].
  destruct (span is_space r) as [ws r1].
  destruct r1 as [|q2 r2]; [discriminate|].
  destruct (is_quote q2); [|discriminate].
  destruct (span is_op r2) as [ops r3].
  destruct (span is_space r3) as [ws' r4].
  pose proof (span_spec is_digit r4) as [_ Hd1].
  destruct (span is_digit r4) as [d1 r5]. cbn [fst] in Hd1.
  destruct d1 as [|x d1]; [discriminate|].
  destruct r5 as [|dot r6]; [discriminate|].
  destruct (N.eqb_spec dot 46) as [->|]; [|discriminate].
  pose proof (span_spec is_digit r6) as [_ Hd2].
  destruct (span is_digit r6) as [d2 r7]. cbn [fst] in Hd2.
  destruct d2 as [|y d2]; [discriminate|].
  pose proof (dot_group_cases r7) as Hg1.
  destruct (dot_group r7) as [g1 r8]. cbn [fst] in Hg1.
  pose proof (dot_group_cases r8) as Hg2.
  destruct (dot_group r8) as [g2 r9]. cbn [fst] in Hg2.
  destruct r9 as [|q3 r10]; [discriminate|].
  destruct (is_quote q3); [|discriminate].
  intros H; injection H as <-.
  exists (x :: d1), (y :: d2), g1, g2. repeat split; assumption.
Qed.

Lemma split_numeral_groups (d2 g1 g2 : jsstring) :
  is_numeral d2 = true -> dot_numeral g1 -> dot_numeral g2 ->
  exists comps,
    split 46 (d2 ++ g1 ++ g2) = d2 :: comps
    /\ (List.length comps <= 2)%nat
    /\ forallb is_numeral comps = true.
Proof.
  intros H2 Hg1 Hg2.
  pose proof (digits_no_dot _ (proj2 (is_numeral_digits _ H2))) as Hn2.
  destruct Hg1 as [->|(d3 & -> & H3)]; destruct Hg2 as [->|(d4 & -> & H4)];
    cbn [app]; rewrite ?app_nil_r.
  - exists []. rewrite (split_sep_one _ _ Hn2). repeat split. cbn. lia.
  - pose proof (digits_no_dot _ (proj2 (is_numeral_digits _ H4))) as Hn4.
    exists [d4]. rewrite (split_sep_app _ _ _ Hn2), (split_sep_one _ _ Hn4).
    repeat split; [cbn; lia | cbn; rewrite H4; reflexivity].
  - pose proof (digits_no_dot _ (proj2 (is_numeral_digits _ H3))) as Hn3.
    exists [d3]. rewrite (split_sep_app _ _ _ Hn2), (split_sep_one _ _ Hn3).
    repeat split; [cbn; lia | cbn; rewrite H3; reflexivity].
  - pose proof (digits_no_dot _ (proj2 (is_numeral_digits _ H3))) as Hn3.
    pose proof (digits_no_dot _ (proj2 (is_numeral_digits _ H4))) as Hn4.
    exists [d3; d4].
    rewrite (split_sep_app _ _ _ Hn2), (split_sep_app _ _ _ Hn3),
      (split_sep_one _ _ Hn4).
    repeat split; [cbn; lia | cbn; rewrite H3, H4; reflexivity].
Qed.

Lemma match_version_at_numeric (t v : jsstring) :
  match_version_at t = Some v -> is_numeric_version v = true.
Proof.
  intros H.
  destruct (match_version_at_spec _ H)
    as (d1 & d2 & g1 & g2 & -> & H1 & H2 & Hg1 & Hg2).
  destruct (split_numeral_groups _ H2 Hg1 Hg2) as (comps & Hs & Hlen & Hall).
  pose proof (digits_no_dot _ (proj2 (is_numeral_digits _ H1))) as Hn1.
  unfold is_numeric_version. cbv zeta.
  rewrite (split_sep_app _ _ _ Hn1), Hs.
  cbn [List.length forallb]. rewrite H1, H2, Hall.
  destruct comps as [|c1 [|c2 [|c3 comps]]]; cbn in Hlen |- *;
    try reflexivity; lia.
Qed.

(** X4.  The version extracted by [parseGemLine] has two to four
    components separated by dots, each a decimal numeral: the operator and
    the white space of the constraint are left out. *)
Theorem parseGemLine_version_is_numeric :
  forall line v : jsstring,
    currentVersion (parseGemLine line) = Some v ->
    is_numeric_version v = true.
Proof.
  intros line v. unfold parseGemLine.
  destruct (search match_gem_at line); cbn [currentVersion]; [|discriminate].
  intros Hs. destruct (search_some _ _ Hs) as (a & t & _ & Ht).
  exact (match_version_at_numeric _ Ht).
Qed.

Lemma parseGemLine_version_is_numeric_witness :
  is_numeric_version (lit "7.0.8.1") = true.
Proof.
  exact (@parseGemLine_version_is_numeric
           (src "gem 'rails', '>=  7.0.8.1', require: false")
           (lit "7.0.8.1") eq_refl).
Defined.

(* ===================================================================== *)
(** ** More on the resolver *)
(* ===================================================================== *)

Lemma major_of_numeric_witness :
  major_of (lit "12.4.0") <> NaN.
Proof.
  exact (@major_of_numeric (lit "12") (lit ".4.0")
           ltac:(discriminate) eq_refl eq_refl).
Defined.

Lemma strict_eq_NaN_r (x : num) : strict_eq x NaN = false.
Proof. destruct x; reflexivity. Qed.

Lemma majorVersions_NaN (stable : list Version) : majorVersions stable NaN = [].
Proof.
  unfold majorVersions. induction stable as [|v r IH]; [reflexivity|].
  cbn [filter]. rewrite strict_eq_NaN_r. exact IH.
Qed.

(** X6.  The promise resolves [null] on a history exactly when it has no
    stable record, or the leading component of its first stable record is
    not a number. *)
Theorem latestVersionInfo_none_iff :
  forall versions : list Version,
    latestVersionInfo versions = None
    <-> stableVersions versions = []
        \/ exists v rest,
             stableVersions versions = v :: rest
             /\ major_of (number v) = NaN.
Proof.
  intros versions. split.
  - intros H. destruct (stableVersions versions) as [|v rest] eqn:Hst;
      [left; reflexivity|].
    right. exists v, rest. split; [reflexivity|].
    destruct (major_of (number v)) eqn:Hm; [reflexivity| |];
      exfalso;
      (assert (Hnum : major_of (number v) <> NaN) by (rewrite Hm; discriminate));
      destruct (@latestVersionInfo_some _ _ _ Hst Hnum) as [d Hd];
      rewrite Hd in H; discriminate.
  - intros [H|(v & rest & Hst & Hm)]; unfold latestVersionInfo; rewrite H || rewrite Hst.
    + reflexivity.
    + rewrite Hm, majorVersions_NaN. reflexivity.
Qed.

Lemma latestVersionInfo_none_iff_witness :
  latestVersionInfo
    [ mkVersion (lit "2.0.0.rc1") true 0; mkVersion (lit "one.0") false 0 ]
  = None.
Proof.
  apply (proj2 (latestVersionInfo_none_iff
                  [ mkVersion (lit "2.0.0.rc1") true 0;
                    mkVersion (lit "one.0") false 0 ])).
  right. exists (mkVersion (lit "one.0") false 0), []. split; reflexivity.
Defined.

Lemma last_elt_In (A : Type) (l : list A) (x : A) :
  last_elt l = Some x -> In x l.
Proof.
  induction l as [|y l IH]; [discriminate|].
  destruct l as [|z l].
  - intros H; injection H as ->. left. reflexivity.
  - intros H. right. apply IH. exact H.
Qed.

(** X7.  The resolver never proposes a prerelease: the target is the
    constraint the line already has, or the number of a record of the
    history that is not a prerelease. *)
Theorem resolve_target_is_current_or_stable :
  forall (today : Z) (currentVersion : option jsstring)
         (versions : list Version) (target : jsstring),
    resolve today currentVersion versions = Some target ->
    currentVersion = Some target
    \/ exists v, In v versions /\ prerelease v = false /\ number v = target.
Proof.
  intros today cur versions target. unfold resolve.
  destruct (latestVersionInfo versions) as [info|] eqn:Hinfo; [|discriminate].
  intros H; injection H as <-.
  destruct (determineTargetVersion_cases today cur (latest info)
              (majorReleaseDate info)) as [->|Hc]; [|left; exact Hc].
  right.
  destruct (@latestVersionInfo_inv _ _ Hinfo) as (v & rest & oldest & Hst & _ & ->).
  exists v. cbn [latest].
  assert (Hin : In v (stableVersions versions)) by (rewrite Hst; left; reflexivity).
  unfold stableVersions in Hin. apply filter_In in Hin as [Hin Hp].
  apply negb_true_iff in Hp. auto.
Qed.

Lemma resolve_target_is_current_or_stable_witness :
  Some (lit "2.9.0") = Some (lit "2.3.0")
  \/ exists v, In v history_2x /\ prerelease v = false
               /\ number v = lit "2.3.0".
Proof.
  exact (@resolve_target_is_current_or_stable 0 (Some (lit "2.9.0"))
           history_2x (lit "2.3.0") eq_refl).
Defined.

(** X8.  The date handed to the staleness check is the [created_at] of a
    record that is not a prerelease and whose leading component equals that
    of the latest version: never the date of a prerelease or of another
    major line. *)
Theorem majorReleaseDate_from_stable_major_line :
  forall (versions : list Version) (info : LatestInfo),
    latestVersionInfo versions = Some info ->
    exists v,
      In v versions
      /\ prerelease v = false
      /\ strict_eq (major_of (number v)) (major_of (latest info)) = true
      /\ created_at v = majorReleaseDate info.
Proof.
  intros versions info H.
  destruct (@latestVersionInfo_inv _ _ H) as (v & rest & oldest & Hst & Hl & ->).
  unfold latest_major_line in Hl. rewrite Hst in Hl.
  apply last_elt_In in Hl. unfold majorVersions in Hl.
  apply filter_In in Hl as [Hin Heq].
  rewrite <- Hst in Hin. unfold stableVersions in Hin.
  apply filter_In in Hin as [Hin Hp]. apply negb_true_iff in Hp.
  exists oldest. cbn [latest majorReleaseDate]. auto.
Qed.

Lemma majorReleaseDate_from_stable_major_line_witness :
  exists v,
    In v history_2x
    /\ prerelease v = false
    /\ strict_eq (major_of (number v)) (major_of (lit "2.3.0")) = true
    /\ created_at v = (100 * MS_PER_DAY)%Z.
Proof.
  exact (@majorReleaseDate_from_stable_major_line history_2x
           (mkLatestInfo (lit "2.3.0") (100 * MS_PER_DAY)) eq_refl).
Defined.

(** X9.  The gate only opens with time: a target that is the latest
    version at some time is the latest version at every later time. *)
Theorem determineTargetVersion_monotone :
  forall (today later : Z) (currentVersion : option jsstring)
         (latestVersion : jsstring) (date : Z),
    (today <= later)%Z ->
    determineTargetVersion today currentVersion latestVersion date
      = latestVersion ->
    determineTargetVersion later currentVersion latestVersion date
      = latestVersion.
Proof.
  intros today later cur latestVersion date Hle.
  unfold determineTargetVersion.
  destruct cur as [[|c cur]|]; try (intros _; reflexivity).
  destruct (strict_eq _ _); [intros _; reflexivity|].
  rewrite !threshold_days_ms.
  destruct (Z.leb_spec (MAJOR_VERSION_AGE_THRESHOLD * MS_PER_DAY) (today - date)).
  - intros _.
    destruct (Z.leb_spec (MAJOR_VERSION_AGE_THRESHOLD * MS_PER_DAY) (later - date));
      [reflexivity | lia].
  - intros ->.
    destruct (_ <=? _)%Z; reflexivity.
Qed.

Lemma determineTargetVersion_monotone_witness :
  determineTargetVersion (365 * MS_PER_DAY) (Some (lit "2.3.0")) (lit "3.0.0") 0
    = lit "3.0.0".
Proof.
  exact (@determineTargetVersion_monotone (180 * MS_PER_DAY) (365 * MS_PER_DAY)
           (Some (lit "2.3.0")) (lit "3.0.0") 0
           ltac:(vm_compute; discriminate) eq_refl).
Defined.

(* ===================================================================== *)
(** ** More on the rebuilder *)
(* ===================================================================== *)

Lemma dropWhile_head (p : char -> bool) (s : jsstring) : stops p (dropWhile p s).
Proof.
  induction s as [|c s IH]; [exact I|].
  cbn [dropWhile]. destruct (p c) eqn:Hc; [exact IH | exact Hc].
Qed.

Lemma trimEnd_fixed (s : jsstring) : stops is_space (rev s) -> trimEnd s = s.
Proof.
  intros H. unfold trimEnd. rewrite (dropWhile_stops _ _ H).
  apply rev_involutive.
Qed.

(** The text appended after the constraint, read backwards, does not start
    with white space. *)
Lemma remaining_rev_stops (x : jsstring) : stops is_space (rev (remaining x)).
Proof.
  rewrite remaining_blank. destruct (blank x); [exact I|].
  unfold trimEnd. rewrite rev_involutive. apply dropWhile_head.
Qed.

(** X10.  The rebuilt line never ends with white space: its last unit is
    the closing quote of the constraint or the last unit of the trailing
    text that is not white space.  A carriage return at the end of the line
    read is not written back. *)
Theorem buildGemLine_no_trailing_space :
  forall line name version : jsstring,
    trimEnd (buildGemLine line name version) = buildGemLine line name version.
Proof.
  intros line name version. apply trimEnd_fixed.
  rewrite buildGemLine_eq.
  set (q := detect_quote line name).
  set (R := remaining (strip_constraint (afterGem_of line name))).
  replace (indent_of line ++ lit "gem " ++ q :: name ++ q :: lit ", "
             ++ q :: lit "~> " ++ version ++ q :: R)
    with ((indent_of line ++ lit "gem " ++ q :: name ++ q :: lit ", "
             ++ q :: lit "~> " ++ version) ++ q :: R)
    by (repeat (rewrite <- ?app_assoc; cbn [app]); reflexivity).
  rewrite rev_app_distr. cbn [rev]. rewrite <- app_assoc. cbn [app].
  pose proof (remaining_rev_stops (strip_constraint (afterGem_of line name)))
    as HR. fold R in HR.
  destruct (rev R) as [|c t]; cbn [app].
  - exact (quote_not_space _ (detect_quote_is_quote line name)).
  - exact HR.
Qed.

Lemma match_after_gem_at_name (name u g : jsstring) :
  name <> [] -> forallb not_quote name = true ->
  match_after_gem_at name u = Some g ->
  match_gem_at u = Some name.
Proof.
  intros Hne Hn. unfold match_after_gem_at, match_gem_at.
  destruct (stripPrefix u (lit "gem")) as [r|]; [|discriminate].
  destruct (span is_space r) as [ws r1].
  destruct ws as [|w ws]; [discriminate|].
  destruct r1 as [|q r2]; [discriminate|].
  destruct (is_quote q); [|discriminate].
  destruct (stripPrefix r2 name) as [[|q' r3]|] eqn:Hs; try discriminate.
  destruct (is_quote q') eqn:Hq'; [|discriminate].
  intros _. apply stripPrefix_some in Hs. rewrite Hs.
  rewrite (span_app not_quote name (q' :: r3) Hn)
    by (unfold stops, not_quote; rewrite Hq'; reflexivity).
  destruct name; [contradiction|]. rewrite Hq'. reflexivity.
Qed.

Lemma search_app_first (A : Type) (m : jsstring -> option A) (a t : jsstring) :
  (forall a1 a2, a = a1 ++ a2 -> a2 <> [] -> m (a2 ++ t) = None) ->
  search m (a ++ t) = search m t.
Proof.
  induction a as [|c a IH]; intros H; [reflexivity|].
  cbn [app search].
  pose proof (H [] (c :: a) eq_refl ltac:(discriminate)) as H0.
  cbn [app] in H0. rewrite H0.
  apply IH. intros a1 a2 Ha Hne. apply (H (c :: a1) a2); [|exact Hne].
  rewrite Ha. reflexivity.
Qed.

(** X11.  The parser and the rebuilder agree on the name token: for the
    name parsed from a line, the pattern of the rebuilder matches at the
    same place, and what it keeps is the text after the closing quote of
    the name, less the white space that follows it, up to the first line
    terminator. *)
Theorem afterGem_of_parsed_name :
  forall line name : jsstring,
    gemName (parseGemLine line) = Some name ->
    exists a ws q1 q2 b,
      line = a ++ lit "gem" ++ ws ++ q1 :: name ++ q2 :: b
      /\ search (match_after_gem_at name) line
         = Some (fst (span not_line_terminator (snd (span is_space b))))
      /\ afterGem_of line name
         = fst (span not_line_terminator (snd (span is_space b))).
Proof.
  intros line name H.
  destruct (parseGemLine_name_context _ H)
    as (a & ws & q1 & q2 & b & Hl & Hne & Hws & Hq1 & Hq2 & Hn & Hnq & Hfirst).
  exists a, ws, q1, q2, b. split; [exact Hl|].
  assert (Hs : search (match_after_gem_at name) line
               = Some (fst (span not_line_terminator (snd (span is_space b))))).
  { rewrite Hl. rewrite search_app_first.
    - apply search_here. unfold match_after_gem_at.
      rewrite stripPrefix_app.
      rewrite (span_app is_space ws (q1 :: _) Hws (quote_not_space _ Hq1)).
      destruct ws as [|w ws]; [contradiction|].
      rewrite Hq1, stripPrefix_app, Hq2.
      destruct (span is_space b) as [ws' r4]. reflexivity.
    - intros a1 a2 Ha Hne2.
      destruct (match_after_gem_at name _) as [g|] eqn:Hm; [|reflexivity].
      pose proof (match_after_gem_at_name _ Hn Hnq Hm) as Hg.
      rewrite (Hfirst a1 a2 Ha Hne2) in Hg. discriminate. }
  split; [exact Hs|]. unfold afterGem_of. rewrite Hs. reflexivity.
Qed.

Lemma afterGem_of_parsed_name_witness :
  exists a ws q1 q2 b,
    src "gem 'pg',   '~> 1.0', require: false"
    = a ++ lit "gem" ++ ws ++ q1 :: lit "pg" ++ q2 :: b
    /\ search (match_after_gem_at (lit "pg"))
         (src "gem 'pg',   '~> 1.0', require: false")
       = Some (fst (span not_line_terminator (snd (span is_space b))))
    /\ afterGem_of (src "gem 'pg',   '~> 1.0', require: false") (lit "pg")
       = fst (span not_line_terminator (snd (span is_space b))).
Proof.
  exact (@afterGem_of_parsed_name
           (src "gem 'pg',   '~> 1.0', require: false") (lit "pg") eq_refl).
Defined.

(** *** The rebuilt line of a declaration *)













(** *** Parsing a rebuilt line *)

Lemma join_cons_head (sep c : char) (h : jsstring) (r : list jsstring) :
  join sep ((c :: h) :: r) = c :: join sep (h :: r).
Proof. destruct r; reflexivity. Qed.

(** Splitting at a separator and joining with it gives the string back. *)
Lemma join_split (sep : char) (s : jsstring) : join sep (split sep s) = s.
Proof.
  induction s as [|c t IH]; [reflexivity|].
  cbn [split]. destruct (N.eqb_spec c sep) as [->|Hne].
  - pose proof (split_not_nil sep t) as Hn.
    destruct (split sep t) as [|x r]; [contradiction|].
    change (join sep ([] :: x :: r)) with ([] ++ sep :: join sep (x :: r)).
    rewrite IH. reflexivity.
  - pose proof (split_not_nil sep t) as Hn.
    destruct (split sep t) as [|h r]; [contradiction|].
    rewrite join_cons_head, IH. reflexivity.
Qed.

(** A numeric version, as the version pattern reads it: two numerals and
    up to two groups of a dot and a numeral. *)
Lemma numeric_version_forms (v : jsstring) :
  is_numeric_version v = true ->
  exists d1 d2 g1 g2 : jsstring,
    v = d1 ++ 46 :: d2 ++ g1 ++ g2
    /\ is_numeral d1 = true /\ is_numeral d2 = true
    /\ dot_numeral g1 /\ dot_numeral g2
    /\ (g1 = [] -> g2 = []).
Proof.
  unfold is_numeric_version. cbv zeta. intros H.
  pose proof (join_split 46 v) as Hj.
  destruct (split 46 v) as [|c1 [|c2 [|c3 [|c4 [|c5 r]]]]];
    cbn [List.length Nat.leb andb forallb] in H; try discriminate.
  - apply andb_true_iff in H as [H1 H]. apply andb_true_iff in H as [H2 _].
    exists c1, c2, [], []. cbn [join] in Hj. rewrite !app_nil_r.
    repeat split; auto; left; reflexivity.
  - apply andb_true_iff in H as [H1 H]. apply andb_true_iff in H as [H2 H].
    apply andb_true_iff in H as [H3 _].
    exists c1, c2, (46 :: c3), []. cbn [join] in Hj. rewrite !app_nil_r.
    repeat split; auto; try discriminate.
    + right. exists c3. auto.
    + left. reflexivity.
  - apply andb_true_iff in H as [H1 H]. apply andb_true_iff in H as [H2 H].
    apply andb_true_iff in H as [H3 H]. apply andb_true_iff in H as [H4 _].
    exists c1, c2, (46 :: c3), (46 :: c4). cbn [join] in Hj.
    repeat split; auto; try discriminate.
    + right. exists c3. auto.
    + right. exists c4. auto.
Qed.

Lemma quote_props (q : char) :
  is_quote q = true ->
  is_digit q = false /\ (q =? 46) = false /\ is_op q = false.
Proof. intros H. destruct (is_quote_cases _ H); subst; repeat split. Qed.

Lemma numeral_head (d : jsstring) (b : jsstring) :
  is_numeral d = true ->
  stops is_space (d ++ b) /\ stops is_op (d ++ b).
Proof.
  destruct d as [|x d]; [discriminate|]. cbn [is_numeral forallb app stops].
  intros H. apply andb_true_iff in H as [Hx _].
  apply is_digit_cases in Hx. cbn [In] in Hx.
  repeat (destruct Hx as [<-|Hx]; [split; reflexivity|]). contradiction.
Qed.

Lemma dot_group_take (d Y : jsstring) :
  is_numeral d = true -> stops is_digit Y ->
  dot_group (@cons char 46 (d ++ Y)) = (@cons char 46 d, Y).
Proof.
  intros Hd HY. unfold dot_group. rewrite N.eqb_refl.
  destruct (is_numeral_digits _ Hd) as [Hne Hdig].
  rewrite (span_app is_digit d Y Hdig HY).
  destruct d; [contradiction | reflexivity].
Qed.

Lemma dot_group_none (q : char) (Y : jsstring) :
  is_quote q = true -> dot_group (q :: Y) = ([], q :: Y).
Proof.
  intros Hq. unfold dot_group.
  destruct (quote_props _ Hq) as (_ & -> & _). reflexivity.
Qed.

Lemma span_one (p : char -> bool) (c : char) (b : jsstring) :
  p c = true -> stops p b -> span p (c :: b) = ([c], b).
Proof. intros Hc Hb. exact (span_app p [c] b (andb_true_intro (conj Hc eq_refl)) Hb). Qed.

Lemma span_two (p : char -> bool) (c d : char) (b : jsstring) :
  p c = true -> p d = true -> stops p b -> span p (c :: d :: b) = ([c; d], b).
Proof.
  intros Hc Hd Hb.
  assert (H : forallb p [c; d] = true) by (cbn; rewrite Hc, Hd; reflexivity).
  exact (span_app p [c; d] b H Hb).
Qed.

(** The version pattern on the constraint token that the rebuilder
    writes. *)
Lemma match_version_at_written (q q' q'' : char) (v rest : jsstring) :
  is_quote q = true -> is_quote q' = true -> is_quote q'' = true ->
  is_numeric_version v = true ->
  match_version_at (q :: lit ", " ++ q' :: lit "~> " ++ v ++ q'' :: rest)
  = Some v.
Proof.
  intros Hq Hq' Hq'' Hv.
  destruct (numeric_version_forms _ Hv)
    as (d1 & d2 & g1 & g2 & -> & H1 & H2 & Hg1 & Hg2 & Hg).
  destruct (is_numeral_digits _ H1) as [Hne1 Hd1].
  destruct (is_numeral_digits _ H2) as [Hne2 Hd2].
  change (lit ", ") with [44; 32]. change (lit "~> ") with [126; 62; 32].
  cbn [app]. unfold match_version_at. rewrite Hq. cbn [andb].
  rewrite N.eqb_refl.
  rewrite (span_one is_space 32 (q' :: _) eq_refl (quote_not_space _ Hq')).
  rewrite Hq'.
  replace ((d1 ++ 46 :: d2 ++ g1 ++ g2) ++ q'' :: rest)
    with (d1 ++ 46 :: d2 ++ g1 ++ g2 ++ q'' :: rest)
    by (repeat (rewrite <- ?app_assoc; cbn [app]); reflexivity).
  rewrite (span_two is_op 126 62 (32 :: _) eq_refl eq_refl eq_refl).
  rewrite (span_one is_space 32 (d1 ++ _) eq_refl
             (proj1 (numeral_head _ _ H1))).
  rewrite (span_app is_digit d1 (46 :: _) Hd1 eq_refl).
  destruct d1 as [|x d1]; [contradiction|].
  rewrite N.eqb_refl.
  assert (Hstop : stops is_digit (g1 ++ g2 ++ q'' :: rest)).
  { destruct Hg1 as [->|(d & -> & _)]; [|reflexivity].
    rewrite (Hg eq_refl). cbn. apply quote_props, Hq''. }
  rewrite (span_app is_digit d2 _ Hd2 Hstop).
  destruct d2 as [|y d2]; [contradiction|].
  destruct Hg1 as [->|(d3 & -> & H3)].
  - rewrite (Hg eq_refl). cbn [app].
    rewrite (@dot_group_none _ _ Hq''), (@dot_group_none _ _ Hq''), Hq''.
    rewrite !app_nil_r. reflexivity.
  - cbn [app].
    assert (Hstop2 : stops is_digit (g2 ++ q'' :: rest)).
    { destruct Hg2 as [->|(d & -> & _)]; [|reflexivity].
      cbn. apply quote_props, Hq''. }
    rewrite (@dot_group_take _ _ H3 Hstop2).
    destruct Hg2 as [->|(d4 & -> & H4)].
    + cbn [app]. rewrite (@dot_group_none _ _ Hq''), Hq''.
      rewrite !app_nil_r. reflexivity.
    + cbn [app].
      rewrite (@dot_group_take _ (q'' :: rest) H4 (proj1 (quote_props _ Hq''))), Hq''.
      reflexivity.
Qed.

Lemma space_is_not_quote (c : char) : is_space c = true -> not_quote c = true.
Proof.
  intros H. unfold not_quote. destruct (is_quote c) eqn:Hq; [|reflexivity].
  rewrite (quote_not_space _ Hq) in H. discriminate.
Qed.

(** The version pattern starts with a quote. *)
Lemma match_version_at_not_quote (c : char) (t : jsstring) :
  not_quote c = true -> match_version_at (c :: t) = None.
Proof.
  unfold not_quote, match_version_at. intros H.
  apply negb_true_iff in H. rewrite H. destruct t; reflexivity.
Qed.

Lemma span_stuck (p : char -> bool) (a : jsstring) :
  forallb p a = false ->
  exists pre y post,
    a = pre ++ y :: post /\ forallb p pre = true /\ p y = false.
Proof.
  induction a as [|c a IH]; [discriminate|].
  cbn [forallb]. destruct (p c) eqn:Hc.
  - cbn [andb]. intros H. destruct (IH H) as (pre & y & post & -> & Hp & Hy).
    exists (c :: pre), y, post. cbn [forallb app]. rewrite Hc, Hp. auto.
  - intros _. exists [], c, a. auto.
Qed.

(** The version pattern fails on the opening quote of the name token:
    should the name start with a comma, what follows is not a constraint. *)
Lemma match_version_at_open_quote (q q' : char) (name rest : jsstring) :
  is_quote q = true -> is_quote q' = true ->
  name <> [] -> forallb not_quote name = true ->
  match_version_at (q :: name ++ q' :: lit ", " ++ rest) = None.
Proof.
  intros Hq Hq' Hne Hn. destruct name as [|x name]; [contradiction|].
  cbn [forallb] in Hn. apply andb_true_iff in Hn as [_ Hn].
  change (lit ", ") with [44; 32]. cbn [app].
  unfold match_version_at. rewrite Hq. cbn [andb].
  destruct (x =? 44); [|reflexivity].
  destruct (forallb is_space name) eqn:Hb.
  - rewrite (span_app is_space name (q' :: _) Hb (quote_not_space _ Hq')).
    rewrite Hq'. reflexivity.
  - destruct (span_stuck _ _ Hb) as (pre & y & post & -> & Hpre & Hy).
    rewrite <- app_assoc. cbn [app].
    rewrite (span_app is_space pre (y :: _) Hpre Hy).
    rewrite forallb_app in Hn. apply andb_true_iff in Hn as [_ Hn].
    cbn [forallb] in Hn. apply andb_true_iff in Hn as [Hyq _].
    unfold not_quote in Hyq. apply negb_true_iff in Hyq. rewrite Hyq.
    reflexivity.
Qed.

Lemma search_skip_where (A : Type) (P : char -> bool)
    (m : jsstring -> option A) (a b : jsstring) :
  (forall c t, P c = true -> m (c :: t) = None) ->
  forallb P a = true ->
  search m (a ++ b) = search m b.
Proof.
  intros Hm. induction a as [|c a IH]; intros Ha; [reflexivity|].
  cbn [forallb] in Ha. apply andb_true_iff in Ha as [Hc Ha].
  cbn [app search]. rewrite (Hm _ _ Hc). exact (IH Ha).
Qed.

Lemma match_gem_at_space (c : char) (t : jsstring) :
  is_space c = true -> match_gem_at (c :: t) = None.
Proof.
  intros Hc. unfold match_gem_at.
  change (lit "gem") with [103; 101; 109]. cbn [stripPrefix].
  rewrite (space_not_g _ Hc). reflexivity.
Qed.

(** The parser on a rebuilt line finds the name and the version it was
    built with. *)
Lemma parseGemLine_rebuilt (line name version : jsstring) :
  name <> [] -> forallb not_quote name = true ->
  is_numeric_version version = true ->
  search match_gem_at (buildGemLine line name version) = Some name
  /\ search match_version_at (buildGemLine line name version) = Some version.
Proof.
  intros Hne Hn Hv. rewrite buildGemLine_eq.
  set (q := detect_quote line name).
  set (R := remaining (strip_constraint (afterGem_of line name))).
  pose proof (detect_quote_is_quote line name) as Hq. fold q in Hq.
  split.
  - rewrite (search_skip _ _ _ match_gem_at_space (indent_of_blank line)).
    apply search_here. unfold match_gem_at.
    change (lit "gem ") with (lit "gem" ++ [32]). rewrite <- app_assoc.
    rewrite stripPrefix_app. cbn [app].
    rewrite (span_one is_space 32 (q :: _) eq_refl (quote_not_space _ Hq)).
    rewrite Hq.
    rewrite (span_app not_quote name (q :: _) Hn)
      by (unfold stops, not_quote; rewrite Hq; reflexivity).
    destruct name; [contradiction|]. rewrite Hq. reflexivity.
  - replace (indent_of line ++ lit "gem " ++ q :: name ++ q :: lit ", "
               ++ q :: lit "~> " ++ version ++ q :: R)
      with ((indent_of line ++ lit "gem ")
              ++ q :: name ++ q :: lit ", " ++ q :: lit "~> " ++ version ++ q :: R)
      by (rewrite <- app_assoc; reflexivity).
    rewrite (@search_skip_where _ not_quote match_version_at
               (indent_of line ++ lit "gem ") _ match_version_at_not_quote).
    + cbn [search].
      rewrite (@match_version_at_open_quote q q name
                 (q :: lit "~> " ++ version ++ q :: R) Hq Hq Hne Hn).
      rewrite (@search_skip_where _ not_quote match_version_at
                 name _ match_version_at_not_quote Hn).
      apply search_here. apply match_version_at_written; assumption.
    + rewrite forallb_app.
      rewrite (forallb_imp _ _ _ space_is_not_quote (indent_of_blank line)).
      reflexivity.
Qed.

(** X12.  Parsing a rebuilt line gives back the name and the version it
    was built with, for a name as the parser extracts them (not empty, no
    quote) and a version of two to four numerals. *)
Theorem parseGemLine_buildGemLine :
  forall line name version : jsstring,
    name <> [] ->
    forallb not_quote name = true ->
    is_numeric_version version = true ->
    gemName (parseGemLine (buildGemLine line name version)) = Some name
    /\ currentVersion (parseGemLine (buildGemLine line name version))
       = Some version.
Proof.
  intros line name version Hne Hn Hv.
  destruct (@parseGemLine_rebuilt line name version Hne Hn Hv) as [H1 H2].
  unfold parseGemLine. rewrite H1. cbn [gemName currentVersion].
  split; [reflexivity | exact H2].
Qed.

Lemma parseGemLine_buildGemLine_witness :
  gemName (parseGemLine
             (buildGemLine (src "  gem   `pg` , '>= 1.0' # db")
                (lit "pg") (lit "1.5.6")))
    = Some (lit "pg")
  /\ currentVersion (parseGemLine
                       (buildGemLine (src "  gem   `pg` , '>= 1.0' # db")
                          (lit "pg") (lit "1.5.6")))
     = Some (lit "1.5.6").
Proof.
  exact (@parseGemLine_buildGemLine (src "  gem   `pg` , '>= 1.0' # db")
           (lit "pg") (lit "1.5.6") ltac:(discriminate) eq_refl eq_refl).
Defined.

(** *** Rebuilding a rebuilt line for another version *)

Lemma buildGemLine_rebuilt (line name version version' : jsstring) :
  forallb not_quote name = true ->
  forallb not_quote version = true ->
  forallb not_line_terminator version = true ->
  buildGemLine (buildGemLine line name version) name version'
  = buildGemLine line name version'.
Proof.
  intros Hn Hv Hlv.
  destruct (rebuilt_trailing_spec line name) as [_ Hlt]. cbn zeta in Hlt.
  pose proof (detect_quote_is_quote line name) as Hq.
  rewrite (@buildGemLine_pinned (indent_of line) [32] name [] [32]
             (lit "~> " ++ version)
             (remaining (strip_constraint (afterGem_of line name)))
             [] version'
             (detect_quote line name) (detect_quote line name)
             (detect_quote line name) (detect_quote line name)
             (indent_of_blank line) ltac:(discriminate) eq_refl Hq Hq
             eq_refl eq_refl eq_refl Hq).
  - rewrite (@detect_quote_rebuilt line name version Hn Hv), remaining_idem.
    symmetry. apply buildGemLine_eq.
  - rewrite forallb_app, Hv. reflexivity.
  - rewrite forallb_app, Hlv. reflexivity.
  - exact Hq.
  - exact Hlt.
  - exact I.
  - rewrite buildGemLine_eq.
    repeat (rewrite <- ?app_assoc; cbn [app]). rewrite app_nil_r. reflexivity.
Qed.

(** X13.  Rebuilding a rebuilt line for another version gives the line
    rebuilt for that version: only the version of the constraint changes,
    for a name without quotes and a first version without quotes and line
    terminators. *)
Theorem buildGemLine_twice :
  forall line name version version' : jsstring,
    forallb not_quote name = true ->
    forallb not_quote version = true ->
    forallb not_line_terminator version = true ->
    buildGemLine (buildGemLine line name version) name version'
    = buildGemLine line name version'.
Proof. exact buildGemLine_rebuilt. Qed.

Lemma buildGemLine_twice_witness :
  buildGemLine
    (buildGemLine (src "gem 'pg', '>= 1.0', require: false")
       (lit "pg") (lit "1.5.6"))
    (lit "pg") (lit "2.0")
  = src "gem 'pg', '~> 2.0', require: false".
Proof.
  exact (@buildGemLine_twice (src "gem 'pg', '>= 1.0', require: false")
           (lit "pg") (lit "1.5.6") (lit "2.0") eq_refl eq_refl eq_refl).
Defined.

(* ===================================================================== *)
(** ** Running [update] again *)
(* ===================================================================== *)

Lemma determineTargetVersion_latest_self
    (today : Z) (latestVersion : jsstring) (date : Z) :
  determineTargetVersion today (Some latestVersion) latestVersion date
  = latestVersion.
Proof.
  unfold determineTargetVersion. destruct latestVersion; [reflexivity|].
  destruct (strict_eq _ _); [reflexivity|].
  destruct (_ <=? _)%Z; reflexivity.
Qed.

(** The target, taken as the constraint, is its own target. *)
Lemma determineTargetVersion_fixed
    (today : Z) (current : option jsstring) (latestVersion : jsstring)
    (date : Z) :
  determineTargetVersion today
    (Some (determineTargetVersion today current latestVersion date))
    latestVersion date
  = determineTargetVersion today current latestVersion date.
Proof.
  destruct (determineTargetVersion_cases today current latestVersion date)
    as [->|Hc].
  - apply determineTargetVersion_latest_self.
  - rewrite <- Hc. reflexivity.
Qed.

Lemma numeric_version_units (v : jsstring) :
  is_numeric_version v = true ->
  forallb not_quote v = true
  /\ forallb not_line_terminator v = true
  /\ no_line_feed v = true.
Proof.
  intros Hv.
  destruct (numeric_version_forms _ Hv)
    as (d1 & d2 & g1 & g2 & -> & H1 & H2 & Hg1 & Hg2 & _).
  assert (Hd : forall c, is_digit c = true ->
                 not_quote c = true /\ not_line_terminator c = true
                 /\ negb (c =? 10) = true).
  { intros c Hc. apply is_digit_cases in Hc. cbn [In] in Hc.
    repeat (destruct Hc as [<-|Hc]; [repeat split|]). contradiction. }
  assert (Hall : forall (P : char -> bool) (d : jsstring),
             (forall c, is_digit c = true -> P c = true) ->
             is_numeral d = true -> forallb P d = true).
  { intros P d HP Hnum. apply forallb_imp with (p := is_digit);
      [exact HP | apply is_numeral_digits, Hnum]. }
  assert (Hgrp : forall (P : char -> bool) (g : jsstring),
             (forall c, is_digit c = true -> P c = true) -> P 46 = true ->
             dot_numeral g -> forallb P g = true).
  { intros P g HP H46 [->|(d & -> & Hnum)]; [reflexivity|].
    cbn [forallb]. rewrite H46, (Hall P d HP Hnum). reflexivity. }
  unfold no_line_feed.
  repeat split; repeat (rewrite forallb_app; cbn [forallb]);
    repeat (apply andb_true_iff; split);
    try reflexivity;
    try (apply Hall; [intros c Hc; apply (Hd c Hc) | assumption]);
    try (apply Hgrp; [intros c Hc; apply (Hd c Hc) | reflexivity | assumption]).
Qed.

Lemma currentVersion_numeric (line v : jsstring) :
  currentVersion (parseGemLine line) = Some v -> is_numeric_version v = true.
Proof.
  unfold parseGemLine.
  destruct (search match_gem_at line); cbn [currentVersion]; [|discriminate].
  intros Hs. destruct (search_some _ _ Hs) as (a & t & _ & Ht).
  exact (match_version_at_numeric _ Ht).
Qed.

Section Rerun.

Variable World : Type.
Variable request : jsstring -> World -> Response * World.
Variable clock : World -> Z.

(** The registry gives the same answer for a name at every request, the
    clock shows the same time, and the stable versions served are of two to
    four numerals. *)
Hypothesis same_answer :
  forall name w w', fst (request name w) = fst (request name w').
Hypothesis same_time : forall w w', clock w = clock w'.
Hypothesis stable_numeric :
  forall name w versions v,
    fst (request name w) = Body versions ->
    In v versions -> prerelease v = false ->
    is_numeric_version (number v) = true.

(** The target of a line that is rebuilt is a numeric version. *)
Lemma target_numeric (line name : jsstring) (w : World) (info : LatestInfo)
    (today : Z) :
  resolveLatestInfo (fst (request name w)) = Some info ->
  is_numeric_version
    (determineTargetVersion today (currentVersion (parseGemLine line))
       (latest info) (majorReleaseDate info)) = true.
Proof.
  intros Hinfo.
  destruct (determineTargetVersion_cases today
              (currentVersion (parseGemLine line))
              (latest info) (majorReleaseDate info)) as [->|Hc].
  - destruct (fst (request name w)) as [|versions] eqn:Hr; [discriminate|].
    cbn [resolveLatestInfo] in Hinfo.
    destruct (latestVersionInfo_latest_stable _ Hinfo) as (v & Hin & Hp & ->).
    exact (@stable_numeric name w versions v Hr Hin Hp).
  - exact (currentVersion_numeric _ Hc).
Qed.

Lemma stable_one_line :
  forall name w versions v,
    fst (request name w) = Body versions ->
    In v versions -> prerelease v = false ->
    no_line_feed (number v) = true.
Proof.
  intros name w versions v Hr Hin Hp.
  apply numeric_version_units. exact (@stable_numeric name w versions v Hr Hin Hp).
Qed.

(** A line pushed by a run is pushed as it is by the next run. *)
Lemma updateLine_rerun (line out : jsstring) (w w1 w' : World) :
  updateLine request clock line w = Done out w1 ->
  exists w2, updateLine request clock out w' = Done out w2.
Proof.
  unfold updateLine at 1. unfold fetchLatestVersionInfo.
  destruct (is_gem_line line) eqn:Hg.
  2: { intros H; injection H as <- _. exists w'.
       unfold updateLine. rewrite Hg. reflexivity. }
  destruct (gemName (parseGemLine line)) as [[|c n]|] eqn:Hname;
    try (intros H; injection H as <- _; exists w';
         unfold updateLine; rewrite Hg, Hname; reflexivity).
  destruct (hasAltSource (parseGemLine line)) eqn:Halt.
  { intros H; injection H as <- _. exists w'.
    unfold updateLine. rewrite Hg, Hname, Halt. reflexivity. }
  destruct (has_unescaped_characters (request_path (c :: n))) eqn:Hpath;
    [discriminate|].
  destruct (request (c :: n) w) as [r w0] eqn:Hreq.
  assert (Hr : fst (request (c :: n) w) = r) by (rewrite Hreq; reflexivity).
  destruct (request (c :: n) w') as [r' w2] eqn:Hreq'.
  assert (Hr' : r' = r).
  { rewrite <- Hr, (@same_answer (c :: n) w w'), Hreq'. reflexivity. }
  destruct (resolveLatestInfo r) as [info|] eqn:Hinfo;
    intros H; injection H as <- <-.
  - (* the line was rebuilt *)
    destruct (parseGemLine_name_context _ Hname)
      as (_ & _ & _ & _ & _ & _ & _ & _ & _ & _ & Hne & Hnq & _).
    set (t := determineTargetVersion (clock w0)
                (currentVersion (parseGemLine line))
                (latest info) (majorReleaseDate info)).
    assert (Ht : is_numeric_version t = true).
    { apply (@target_numeric line (c :: n) w). rewrite Hr. exact Hinfo. }
    destruct (numeric_version_units _ Ht) as (Htq & Htl & _).
    destruct (@parseGemLine_rebuilt line (c :: n) t Hne Hnq Ht) as [P1 P2].
    unfold updateLine, fetchLatestVersionInfo.
    destruct (is_gem_line (buildGemLine line (c :: n) t));
      [|exists w'; reflexivity].
    unfold parseGemLine at 1 2 3. rewrite P1.
    cbn [gemName hasAltSource currentVersion].
    destruct (test_altSource None (buildGemLine line (c :: n) t));
      [exists w'; reflexivity|].
    rewrite Hpath, Hreq', Hr', Hinfo. exists w2. f_equal. rewrite P2.
    rewrite (@same_time w2 w0). fold t.
    unfold t at 2. rewrite determineTargetVersion_fixed. fold t.
    apply buildGemLine_rebuilt; assumption.
  - (* the line was skipped *)
    exists w2.
    unfold updateLine, fetchLatestVersionInfo.
    rewrite Hg, Hname, Halt, Hpath, Hreq', Hr', Hinfo. reflexivity.
Qed.

Lemma updateLines_rerun (lines : list jsstring) :
  forall w outs w1 w',
    updateLines request clock lines w = Done outs w1 ->
    exists w2, updateLines request clock outs w' = Done outs w2.
Proof.
  induction lines as [|l lines IH]; intros w outs w1 w' H.
  - injection H as <- _. exists w'. reflexivity.
  - destruct (@updateLines_cons_inv _ _ _ _ _ _ _ _ H)
      as (out & w0 & os & Hl & Hr & ->).
    destruct (@updateLine_rerun l out w w0 w' Hl) as [wa Ha].
    destruct (IH w0 os w1 wa Hr) as [wb Hb].
    exists wb. cbn [updateLines]. rewrite Ha, Hb. reflexivity.
Qed.

(** X14.  Running [update] on the text it has written completes and
    writes the same text, when the registry answers as before, the clock
    shows the same time and the stable versions served are of two to four
    numerals. *)
Theorem update_rerun :
  forall (gemfileContent text : jsstring) (w w1 w' : World),
    update request clock gemfileContent w = Done text w1 ->
    exists w2, update request clock text w' = Done text w2.
Proof.
  intros content text w w1 w' Hdone.
  destruct (@update_text_split _ request clock stable_one_line _ _ _ _ Hdone)
    as (outs & Hrun & Htext & Hsplit).
  destruct (@updateLines_rerun _ w outs w1 w' Hrun) as [w2 Hre].
  exists w2. unfold update. rewrite Hsplit, Hre, Htext. reflexivity.
Qed.

End Rerun.

(* ===================================================================== *)
(** ** A registry without answers, the requests made, and the runs that
       abort *)
(* ===================================================================== *)

Section Requests.

Variable World : Type.
Variable request : jsstring -> World -> Response * World.
Variable clock : World -> Z.

Lemma updateLine_without_answer (line out : jsstring) (w w' : World) :
  (forall name w0, resolveLatestInfo (fst (request name w0)) = None) ->
  updateLine request clock line w = Done out w' ->
  out = line.
Proof.
  intros Hno. unfold updateLine, fetchLatestVersionInfo.
  destruct (is_gem_line line); [|intros H; injection H as <- _; reflexivity].
  destruct (gemName (parseGemLine line)) as [[|c n]|];
    try (intros H; injection H as <- _; reflexivity).
  destruct (hasAltSource (parseGemLine line));
    [intros H; injection H as <- _; reflexivity|].
  destruct (has_unescaped_characters _); [discriminate|].
  pose proof (Hno (c :: n) w) as Hn.
  destruct (request (c :: n) w) as [r w1]. cbn [fst] in Hn.
  rewrite Hn. intros H; injection H as <- _; reflexivity.
Qed.

Lemma updateLines_without_answer (lines : list jsstring) :
  (forall name w0, resolveLatestInfo (fst (request name w0)) = None) ->
  forall w outs w',
    updateLines request clock lines w = Done outs w' -> outs = lines.
Proof.
  intros Hno. induction lines as [|l lines IH]; intros w outs w' H.
  - injection H as <- _. reflexivity.
  - destruct (@updateLines_cons_inv _ _ _ _ _ _ _ _ H)
      as (out & w0 & os & Hl & Hr & ->).
    rewrite (@updateLine_without_answer _ _ _ _ Hno Hl), (IH _ _ _ Hr).
    reflexivity.
Qed.

(** X15.  When no request gives a usable history (the registry is down,
    or serves no stable version), the text written by a run that completes
    is the text read, unit for unit. *)
Theorem update_identity_without_answer :
  (forall name w0, resolveLatestInfo (fst (request name w0)) = None) ->
  forall (gemfileContent text : jsstring) (w w' : World),
    update request clock gemfileContent w = Done text w' ->
    text = gemfileContent.
Proof.
  intros Hno content text w w'. unfold update.
  destruct (updateLines request clock (split 10 content) w)
    as [outs w1|w1] eqn:Hrun; [|discriminate].
  intros H. injection H as <- _.
  rewrite (@updateLines_without_answer _ Hno _ _ _ Hrun). apply join_split.
Qed.






End Requests.

Lemma update_identity_without_answer_witness :
  update registry_prerelease_only (fun _ => 0%Z) (join 10 gemfile_sample) []
    = Done (join 10 gemfile_sample) [lit "foo"]
  /\ join 10 gemfile_sample = join 10 gemfile_sample.
Proof.
  split; [reflexivity|].
  exact (@update_identity_without_answer (list jsstring)
           registry_prerelease_only (fun _ => 0%Z)
           (fun _ _ => eq_refl) (join 10 gemfile_sample)
           (join 10 gemfile_sample) [] [lit "foo"] eq_refl).
Defined.


(* ===================================================================== *)
(** ** The properties above on the samples *)
(* ===================================================================== *)

Lemma registry_4x_numeric :
  forall (name : jsstring) (w : list jsstring) (versions : list Version)
         (v : Version),
    fst (registry_4x name w) = Body versions ->
    In v versions -> prerelease v = false ->
    is_numeric_version (number v) = true.
Proof.
  intros name w versions v H Hin _. cbn in H. injection H as <-.
  destruct Hin as [<-|[<-|[]]]; reflexivity.
Qed.

(** A year after 4.0.0 came out the pinned line of the sample moves to
    4.1.0; the next run leaves the text as it is. *)
Lemma update_rerun_witness :
  update registry_4x (fun _ => 31536000000%Z) (join 10 gemfile_sample) []
  = Done (join 10 [ src "source 'https://rubygems.org'";
                    src "gem `foo`, `~> 4.1.0`";
                    src "gem 'rails', github: 'rails/rails'" ])
      [lit "foo"]
  /\ exists w2,
       update registry_4x (fun _ => 31536000000%Z)
         (join 10 [ src "source 'https://rubygems.org'";
                    src "gem `foo`, `~> 4.1.0`";
                    src "gem 'rails', github: 'rails/rails'" ])
         [lit "foo"]
       = Done (join 10 [ src "source 'https://rubygems.org'";
                         src "gem `foo`, `~> 4.1.0`";
                         src "gem 'rails', github: 'rails/rails'" ])
           w2.
Proof.
  split; [reflexivity|].
  exact (@update_rerun (list jsstring) registry_4x (fun _ => 31536000000%Z)
           (fun _ _ _ => eq_refl) (fun _ _ => eq_refl) registry_4x_numeric
           (join 10 gemfile_sample)
           (join 10 [ src "source 'https://rubygems.org'";
                      src "gem `foo`, `~> 4.1.0`";
                      src "gem 'rails', github: 'rails/rails'" ])
           [] [lit "foo"] [lit "foo"] eq_refl).
Defined.


Lemma update_preserves_line_positions_witness :
  exists outs,
    updateLines registry_4x (fun _ => 31536000000%Z)
      (split 10 (join 10 gemfile_sample)) []
    = Done outs [lit "foo"]
    /\ List.length outs = List.length (split 10 (join 10 gemfile_sample))
    /\ split 10 (join 10 [ src "source 'https://rubygems.org'";
                           src "gem `foo`, `~> 4.1.0`";
                           src "gem 'rails', github: 'rails/rails'" ])
       = outs.
Proof.
  destruct (@update_preserves_line_positions (list jsstring) registry_4x
              (fun _ => 31536000000%Z) (join 10 gemfile_sample)
              (join 10 [ src "source 'https://rubygems.org'";
                         src "gem `foo`, `~> 4.1.0`";
                         src "gem 'rails', github: 'rails/rails'" ])
              [] [lit "foo"] eq_refl)
    as (outs & Hrun & _ & Hlen & _ & Hsplit).
  exists outs. split; [exact Hrun|]. split; [exact Hlen|].
  apply Hsplit.
  intros name w0 versions v H Hin _. cbn in H. injection H as <-.
  destruct Hin as [<-|[<-|[]]]; reflexivity.
Defined.

(** The sample manifest after a run against the registry of the 4.x
    line, on the day 4.0.0 came out and a year later, and the names
    requested. *)
Example update_sample_text :
  update registry_4x (fun _ => 0%Z) (join 10 gemfile_sample) []
  = Done (join 10 gemfile_sample) [lit "foo"]
  /\ update registry_4x (fun _ => (365 * MS_PER_DAY)%Z)
       (join 10 gemfile_sample) []
     = Done (join 10 [ src "source 'https://rubygems.org'";
                       src "gem `foo`, `~> 4.1.0`";
                       src "gem 'rails', github: 'rails/rails'" ])
         [lit "foo"]
  /\ requests_made gemfile_sample = [lit "foo"]
  /\ requests_made gemfile_unescaped = [lit "a"].
Proof. vm_compute. repeat split; reflexivity. Qed.
